(** * Azure MCP agent: the tool-calling orchestration loop

    A shallow embedding of the agent class [AzureMCPAgent] and of
    [src/mcp/azure-mcp-client.ts] ([AzureMCPClient]).  JavaScript values are
    modelled as the code uses them: strings as [string], an optional field as
    [option], the sparse array [toolCalls] as a list of optional entries
    (a hole is [None]), thrown values as [Thrown], and the asynchronous,
    stateful methods as computations of a state-and-exception monad [M]. *)

From Stdlib Require Import String Ascii List Arith Bool Lia.
From stdpp Require Import base option list strings pretty gmap.

Open Scope string_scope.
Open Scope list_scope.

(** ** JavaScript values *)

(** The values [JSON.parse] produces and [JSON.stringify] consumes. *)
#[local] Unset Elimination Schemes.
Inductive Json : Type :=
| JNull
| JBool (b : bool)
| JNum (n : Z)
| JStr (s : string)
| JArr (items : list Json)
| JObj (fields : list (string * Json)).
#[local] Set Elimination Schemes.

(** A thrown value: an [Error] carrying its [message], or anything else. *)
Inductive Thrown : Type :=
| JsError (message : string)
| JsOther.

(** [if (s)] on a [string | undefined]: defined and not the empty string. *)
Definition truthy (s : option string) : bool :=
  match s with
  | Some s => negb (String.eqb s "")
  | None => false
  end.

(** [s || ""] *)
Definition or_empty (s : option string) : string :=
  match s with
  | Some s => s
  | None => ""
  end.

(** ** Sparse arrays

    [toolCalls[index] = v] on a JavaScript array extends the array when
    [index] is past its end and leaves holes in between; reading a hole or
    past the end gives [undefined]. *)
Section SparseArray.
Context {A : Type}.

Definition arr_get (l : list (option A)) (i : nat) : option A :=
  match l !! i with
  | Some (Some v) => Some v
  | _ => None
  end.

Definition arr_set (l : list (option A)) (i : nat) (v : A) : list (option A) :=
  if (i <? length l)%nat then <[i := Some v]> l
  else l ++ replicate (i - length l) None ++ [Some v].

(** [l[i].field = ...] on an entry that is there. *)
Definition arr_update (l : list (option A)) (i : nat) (f : A -> A) : list (option A) :=
  alter (fmap f) i l.

End SparseArray.

(** ** Streamed chunks and accumulated tool calls *)

(** One element of [delta.tool_calls].  [function?.name] and
    [function?.arguments] are [None] when [function] or the field is absent. *)
Module Delta.
Record t : Type := mk {
  index : nat;
  id : option string;
  name : option string;
  arguments : option string;
}.
End Delta.

Record FunctionCall : Type := {
  name : string;
  arguments : string;
}.

Record ToolCall : Type := {
  id : string;
  function : FunctionCall;
}.

Definition set_id (v : string) (tc : ToolCall) : ToolCall :=
  {| id := v; function := function tc |}.

Definition set_name (v : string) (tc : ToolCall) : ToolCall :=
  {| id := id tc;
     function := {| name := v; arguments := arguments (function tc) |} |}.

Definition append_arguments (v : string) (tc : ToolCall) : ToolCall :=
  {| id := id tc;
     function := {| name := name (function tc);
                    arguments := arguments (function tc) +:+ v |} |}.

(** The body of [for (const toolCall of delta.tool_calls)]. *)
Definition accumulate (toolCalls : list (option ToolCall)) (toolCall : Delta.t)
  : list (option ToolCall) :=
  let index := Delta.index toolCall in
  let toolCalls :=
    match arr_get toolCalls index with
    | Some _ => toolCalls
    | None =>
        arr_set toolCalls index
          {| id := or_empty (Delta.id toolCall);
             function := {| name := ""; arguments := "" |} |}
    end in
  let toolCalls :=
    if truthy (Delta.id toolCall)
    then arr_update toolCalls index (set_id (or_empty (Delta.id toolCall)))
    else toolCalls in
  let toolCalls :=
    if truthy (Delta.name toolCall)
    then arr_update toolCalls index (set_name (or_empty (Delta.name toolCall)))
    else toolCalls in
  if truthy (Delta.arguments toolCall)
  then arr_update toolCalls index
         (append_arguments (or_empty (Delta.arguments toolCall)))
  else toolCalls.

(** All fragments of a round, fed in arrival order to an empty array. *)
Definition assemble (fragments : list Delta.t) : list (option ToolCall) :=
  fold_left accumulate fragments [].

(** *** What the accumulated array holds

    The fragments of position [i], in arrival order, and the values a list of
    optional fields actually supplies (the defined, non-empty ones). *)
Definition fragments_at (i : nat) (fragments : list Delta.t) : list Delta.t :=
  filter (fun d => Delta.index d = i) fragments.

Definition supplied (fields : list (option string)) : list string :=
  omap (fun o => if truthy o then o else None) fields.

Definition last_supplied (fields : list (option string)) : string :=
  default "" (last (supplied fields)).

Definition first_supplied (fields : list (option string)) : string :=
  default "" (head (supplied fields)).

(** The chunks of a list appended one after the other, first to last. *)
Definition joined (chunks : list string) : string :=
  fold_right String.append "" chunks.

(** The request that the fragments [fs] of one position build. *)
Definition request_of (fs : list Delta.t) : ToolCall :=
  {| id := last_supplied (Delta.id <$> fs);
     function :=
       {| name := last_supplied (Delta.name <$> fs);
          arguments := joined (supplied (Delta.arguments <$> fs)) |} |}.

(** What one fragment does to the entry of its own position. *)
Definition entry_step (entry : option ToolCall) (d : Delta.t) : ToolCall :=
  let tc :=
    match entry with
    | Some tc => tc
    | None => {| id := or_empty (Delta.id d);
                 function := {| name := ""; arguments := "" |} |}
    end in
  let tc := if truthy (Delta.id d) then set_id (or_empty (Delta.id d)) tc else tc in
  let tc := if truthy (Delta.name d) then set_name (or_empty (Delta.name d)) tc else tc in
  if truthy (Delta.arguments d)
  then append_arguments (or_empty (Delta.arguments d)) tc
  else tc.

(** One streamed chunk, read through [chunk.choices[0]?.delta?.content],
    [chunk.choices[0]?.delta?.tool_calls] and [chunk.choices[0]?.finish_reason];
    a chunk without choices has all three absent. *)
Module Chunk.
Record t : Type := mk {
  content : option string;
  tool_calls : option (list Delta.t);
  finish_reason : option string;
}.
End Chunk.

(** The finite event stream of one completion: its chunks, and the error the
    iteration ends with when the connection fails midway. *)
Module Stream.
Record t : Type := mk {
  chunks : list Chunk.t;
  failure : option Thrown;
}.
End Stream.

(** ** Tools and messages *)

(** The tool as [client.listTools()] of the SDK reports it. *)
Module SdkTool.
Record t : Type := mk {
  name : string;
  description : option string;
  inputSchema : Json;
}.
End SdkTool.

Module MCPTool.
Record t : Type := mk {
  name : string;
  description : string;
  inputSchema : Json;
}.
End MCPTool.

(** [{ type: "function", function: { name, description, parameters } }] *)
Module OpenAITool.
Record t : Type := mk {
  name : string;
  description : string;
  parameters : Json;
}.
End OpenAITool.

(** [ChatCompletionMessageParam], by role. *)
Inductive Message : Type :=
| SystemMessage (content : string)
| UserMessage (content : string)
| AssistantMessage (content : option string)
                   (tool_calls : option (list (option ToolCall)))
| ToolMessage (tool_call_id : string) (content : string).

(** What the agent does to the outside world, in the order it does it. *)
Inductive Event : Type :=
| Requested (messages : list Message) (tools : option (list OpenAITool.t))
| Invoked (name : string) (args : Json).

(** [{ error: message }] *)
Definition error_object (message : string) : Json :=
  JObj [("error", JStr message)].

(** [error instanceof Error ? error.message : "Unknown error"] *)
Definition error_message (error : Thrown) : string :=
  match error with
  | JsError message => message
  | JsOther => "Unknown error"
  end.

(** The [TypeError] of reading [.function] of [undefined]. *)
Definition undefined_read : Thrown :=
  JsError "Cannot read properties of undefined (reading 'function')".

Definition tool_round_marker : string :=
  "

🔧 *Calling Azure tools...*

".

(** ** The state and the monad *)

(** The fields of [AzureMCPClient]; [client] and [transport] record whether
    the field holds an object ([true]) or [null]. *)
Module Client.
Record t : Type := mk {
  client : bool;
  transport : bool;
  tools : list MCPTool.t;
  isConnected : bool;
}.

(** [new AzureMCPClient(config)] *)
Definition fresh : t :=
  {| client := false; transport := false; tools := []; isConnected := false |}.
End Client.

Inductive Result (A : Type) : Type :=
| Ok (a : A)
| Throw (e : Thrown)
| OutOfFuel.
Arguments Ok {A} a.
Arguments Throw {A} e.
Arguments OutOfFuel {A}.

(** The platform and the two services, as the code meets them:
    [JSON.parse] and [JSON.stringify], the tool provider behind the SDK's
    [Client] and transport, and the completion service behind
    [openai.chat.completions.create]. *)
Class Env : Type := {
  JSON_parse : string -> Json + Thrown;
  JSON_stringify : Json -> string;
  Provider : Type;
  sdk_connect : Provider -> (unit + Thrown) * Provider;
  sdk_listTools : Provider -> (list SdkTool.t + Thrown) * Provider;
  sdk_callTool : Provider -> string -> Json -> (Json + Thrown) * Provider;
  sdk_close : Provider -> (unit + Thrown) * Provider;
  LLM : Type;
  create :
    LLM -> list Message -> option (list OpenAITool.t) -> (Stream.t + Thrown) * LLM;
  systemPrompt : string;
}.

Section Agent.
Context `{env : Env}.

Record State : Type := {
  llm : LLM;
  provider : Provider;
  mcpClient : Client.t;
  initialized : bool;
  (** [messages] of the turn being run *)
  messages : list Message;
  (** the chunks the generator has yielded *)
  output : list string;
  events : list Event;
}.

Definition set_llm (v : LLM) (s : State) : State :=
  {| llm := v; provider := provider s; mcpClient := mcpClient s;
     initialized := initialized s; messages := messages s;
     output := output s; events := events s |}.

Definition set_provider (v : Provider) (s : State) : State :=
  {| llm := llm s; provider := v; mcpClient := mcpClient s;
     initialized := initialized s; messages := messages s;
     output := output s; events := events s |}.

Definition set_mcpClient (v : Client.t) (s : State) : State :=
  {| llm := llm s; provider := provider s; mcpClient := v;
     initialized := initialized s; messages := messages s;
     output := output s; events := events s |}.

Definition set_initialized (v : bool) (s : State) : State :=
  {| llm := llm s; provider := provider s; mcpClient := mcpClient s;
     initialized := v; messages := messages s;
     output := output s; events := events s |}.

Definition set_messages (v : list Message) (s : State) : State :=
  {| llm := llm s; provider := provider s; mcpClient := mcpClient s;
     initialized := initialized s; messages := v;
     output := output s; events := events s |}.

Definition set_output (v : list string) (s : State) : State :=
  {| llm := llm s; provider := provider s; mcpClient := mcpClient s;
     initialized := initialized s; messages := messages s;
     output := v; events := events s |}.

Definition set_events (v : list Event) (s : State) : State :=
  {| llm := llm s; provider := provider s; mcpClient := mcpClient s;
     initialized := initialized s; messages := messages s;
     output := output s; events := v |}.

Definition M (A : Type) : Type := State -> Result A * State.

Definition ret {A} (a : A) : M A := fun s => (Ok a, s).

Definition bind {A B} (m : M A) (k : A -> M B) : M B :=
  fun s =>
    match m s with
    | (Ok a, s') => k a s'
    | (Throw e, s') => (Throw e, s')
    | (OutOfFuel, s') => (OutOfFuel, s')
    end.

Definition throw {A} (e : Thrown) : M A := fun s => (Throw e, s).

(** [try { body } catch (error) { handler }] *)
Definition try_catch {A} (body : M A) (handler : Thrown -> M A) : M A :=
  fun s =>
    match body s with
    | (Throw e, s') => handler e s'
    | r => r
    end.

Definition gets {A} (f : State -> A) : M A := fun s => (Ok (f s), s).
Definition modify (f : State -> State) : M unit := fun s => (Ok tt, f s).

(** A call of an SDK method on the provider: its value or what it throws. *)
Definition provider_call {A} (f : Provider -> (A + Thrown) * Provider) : M A :=
  fun s =>
    match f (provider s) with
    | (inl a, p) => (Ok a, set_provider p s)
    | (inr e, p) => (Throw e, set_provider p s)
    end.

#[local] Notation "x <- m ;; k" := (bind m (fun x => k))
  (at level 100, m at next level, right associativity).
#[local] Notation "m ;; k" := (bind m (fun _ => k))
  (at level 100, right associativity).

(** [for (const x of xs) { body x }] *)
Fixpoint for_of {A} (xs : list A) (body : A -> M unit) : M unit :=
  match xs with
  | [] => ret tt
  | x :: xs => body x ;; for_of xs body
  end.

(** [yield chunk] *)
Definition yield (chunk : string) : M unit :=
  modify (fun s => set_output (output s ++ [chunk]) s).

(** [messages.push(m)] *)
Definition push (m : Message) : M unit :=
  modify (fun s => set_messages (messages s ++ [m]) s).

Definition log (e : Event) : M unit :=
  modify (fun s => set_events (events s ++ [e]) s).

(** ** [AzureMCPClient] *)

Definition to_MCPTool (tool : SdkTool.t) : MCPTool.t :=
  {| MCPTool.name := SdkTool.name tool;
     MCPTool.description := default "" (SdkTool.description tool);
     MCPTool.inputSchema := SdkTool.inputSchema tool |}.

Definition update_client (f : Client.t -> Client.t) : M unit :=
  modify (fun s => set_mcpClient (f (mcpClient s)) s).

Definition with_transport (v : bool) (c : Client.t) : Client.t :=
  {| Client.client := Client.client c; Client.transport := v;
     Client.tools := Client.tools c; Client.isConnected := Client.isConnected c |}.

Definition with_client (v : bool) (c : Client.t) : Client.t :=
  {| Client.client := v; Client.transport := Client.transport c;
     Client.tools := Client.tools c; Client.isConnected := Client.isConnected c |}.

Definition with_tools (v : list MCPTool.t) (c : Client.t) : Client.t :=
  {| Client.client := Client.client c; Client.transport := Client.transport c;
     Client.tools := v; Client.isConnected := Client.isConnected c |}.

Definition with_isConnected (v : bool) (c : Client.t) : Client.t :=
  {| Client.client := Client.client c; Client.transport := Client.transport c;
     Client.tools := Client.tools c; Client.isConnected := v |}.

(** [AzureMCPClient.connect].  Building [args] and the environment of the
    child process has no effect on the fields and is left out. *)
Definition connect : M unit :=
  connected <- gets (fun s => Client.isConnected (mcpClient s)) ;;
  if connected then ret tt
  else
    update_client (with_transport true) ;;
    update_client (with_client true) ;;
    provider_call sdk_connect ;;
    update_client (with_isConnected true) ;;
    toolsResponse <- provider_call sdk_listTools ;;
    update_client (with_tools (to_MCPTool <$> toolsResponse)).

(** [AzureMCPClient.callTool] *)
Definition callTool (name : string) (args : Json) : M Json :=
  c <- gets mcpClient ;;
  if negb (Client.client c) || negb (Client.isConnected c)
  then throw (JsError "MCP client not connected")
  else
    log (Invoked name args) ;;
    provider_call (fun p => sdk_callTool p name args).

(** [AzureMCPClient.getTools] *)
Definition getTools : M (list MCPTool.t) :=
  gets (fun s => Client.tools (mcpClient s)).

Definition to_OpenAITool (tool : MCPTool.t) : OpenAITool.t :=
  {| OpenAITool.name := MCPTool.name tool;
     OpenAITool.description := MCPTool.description tool;
     OpenAITool.parameters := MCPTool.inputSchema tool |}.

(** [AzureMCPClient.getOpenAITools] *)
Definition getOpenAITools : M (list OpenAITool.t) :=
  gets (fun s => to_OpenAITool <$> Client.tools (mcpClient s)).

(** [AzureMCPClient.disconnect] *)
Definition disconnect : M unit :=
  open <- gets (fun s => Client.transport (mcpClient s)) ;;
  (if open then provider_call sdk_close else ret tt) ;;
  update_client (with_client false) ;;
  update_client (with_transport false) ;;
  update_client (with_isConnected false).

(** ** [AzureMCPAgent] *)

(** [AzureMCPAgent.initialize] *)
Definition initialize : M unit :=
  done <- gets initialized ;;
  if done then ret tt
  else
    connect ;;
    modify (set_initialized true).

(** [AzureMCPAgent.disconnect] *)
Definition agent_disconnect : M unit :=
  disconnect ;;
  modify (set_initialized false).

(** The locals of one iteration of [while (true)]. *)
Record Round : Type := {
  currentContent : string;
  toolCalls : list (option ToolCall);
  finishReason : option string;
}.

Definition new_round : Round :=
  {| currentContent := ""; toolCalls := []; finishReason := None |}.

(** The body of [for await (const chunk of stream)]. *)
Definition on_chunk (r : Round) (chunk : Chunk.t) : M Round :=
  let finishReason := Chunk.finish_reason chunk in
  r <- (if truthy (Chunk.content chunk)
        then
          yield (or_empty (Chunk.content chunk)) ;;
          ret {| currentContent :=
                   currentContent r +:+ or_empty (Chunk.content chunk);
                 toolCalls := toolCalls r;
                 finishReason := finishReason |}
        else
          ret {| currentContent := currentContent r;
                 toolCalls := toolCalls r;
                 finishReason := finishReason |}) ;;
  match Chunk.tool_calls chunk with
  | Some tool_calls =>
      ret {| currentContent := currentContent r;
             toolCalls := fold_left accumulate tool_calls (toolCalls r);
             finishReason := finishReason |}
  | None => ret r
  end.

Fixpoint for_await (chunks : list Chunk.t) (r : Round) : M Round :=
  match chunks with
  | [] => ret r
  | chunk :: chunks => r <- on_chunk r chunk ;; for_await chunks r
  end.

(** The whole [for await] loop over a stream, which ends by throwing when
    the stream fails. *)
Definition consume (stream : Stream.t) : M Round :=
  r <- for_await (Stream.chunks stream) new_round ;;
  match Stream.failure stream with
  | Some e => throw e
  | None => ret r
  end.

(** [finishReason !== "tool_calls" || toolCalls.length === 0] *)
Definition stops (r : Round) : bool :=
  negb (match finishReason r with
        | Some reason => String.eqb reason "tool_calls"
        | None => false
        end)
  || (length (toolCalls r) =? 0)%nat.

(** [toolCall.function] and [toolCall.id] on an entry of the array, which
    is [undefined] at a hole. *)
Definition deref (toolCall : option ToolCall) : M ToolCall :=
  match toolCall with
  | Some tc => ret tc
  | None => throw undefined_read
  end.

(** [JSON.parse(text)] *)
Definition parse (text : string) : M Json :=
  match JSON_parse text with
  | inl v => ret v
  | inr e => throw e
  end.

(** The body of [for (const toolCall of toolCalls)].  The two [console]
    calls write nothing the agent reads back; the one in the handler still
    evaluates [toolCall.function.name]. *)
Definition execute (toolCall : option ToolCall) : M unit :=
  try_catch
    (tc <- deref toolCall ;;
     args <- parse (arguments (function tc)) ;;
     result <- callTool (name (function tc)) args ;;
     push (ToolMessage (id tc) (JSON_stringify result)))
    (fun error =>
       tc <- deref toolCall ;;
       push (ToolMessage (id tc)
               (JSON_stringify (error_object (error_message error))))).

(** [tools: tools.length > 0 ? tools : undefined] *)
Definition offered (tools : list OpenAITool.t) : option (list OpenAITool.t) :=
  if (0 <? length tools)%nat then Some tools else None.

(** [await this.openai.chat.completions.create({...})] *)
Definition request (tools : list OpenAITool.t) : M Stream.t :=
  fun s =>
    let s1 := set_events (events s ++ [Requested (messages s) (offered tools)]) s in
    match create (llm s) (messages s) (offered tools) with
    | (inl stream, l) => (Ok stream, set_llm l s1)
    | (inr e, l) => (Throw e, set_llm l s1)
    end.

(** The assistant message that records the round's tool calls. *)
Definition assistant_message (r : Round) : Message :=
  AssistantMessage
    (if String.eqb (currentContent r) "" then None else Some (currentContent r))
    (Some (option_map (fun tc => {| id := id tc; function := function tc |})
             <$> toolCalls r)).

(** The part of an iteration that processes the tool calls. *)
Definition tool_round (r : Round) : M unit :=
  yield tool_round_marker ;;
  push (assistant_message r) ;;
  for_of (toolCalls r) execute.

(** What follows the [for await] loop in one iteration: [None] is [break],
    [Some tt] goes round again. *)
Definition after_stream (r : Round) : M (option unit) :=
  if stops r then ret None
  else
    tool_round r ;;
    ret (Some tt).

(** [while (true) { ... }], with [fuel] bounding the number of rounds. *)
Fixpoint runStream_loop (fuel : nat) (tools : list OpenAITool.t) : M unit :=
  match fuel with
  | 0 => fun s => (OutOfFuel, s)
  | S fuel =>
      stream <- request tools ;;
      r <- consume stream ;;
      again <- after_stream r ;;
      match again with
      | None => ret tt
      | Some _ => runStream_loop fuel tools
      end
  end.

(** The system prompt, then [conversationHistory], then the user message. *)
Definition conversation (userMessage : string)
           (conversationHistory : list Message) : list Message :=
  [SystemMessage systemPrompt] ++ conversationHistory
  ++ [UserMessage userMessage].

(** [AzureMCPAgent.runStream] *)
Definition runStream (fuel : nat) (userMessage : string)
           (conversationHistory : list Message) : M unit :=
  initialize ;;
  modify (set_messages (conversation userMessage conversationHistory)) ;;
  tools <- getOpenAITools ;;
  runStream_loop fuel tools.

(** Running a generator to its end from its caller: the chunks it yields
    go to the caller, whose own output is untouched. *)
Definition drain (generator : M unit) : M (list string) :=
  fun s =>
    match generator (set_output [] s) with
    | (Ok _, s') => (Ok (output s'), set_output (output s) s')
    | (Throw e, s') => (Throw e, set_output (output s) s')
    | (OutOfFuel, s') => (OutOfFuel, set_output (output s) s')
    end.

(** [AzureMCPAgent.run]: [result += chunk] for each chunk, first to last. *)
Definition run (fuel : nat) (userMessage : string) : M string :=
  chunks <- drain (runStream fuel userMessage []) ;;
  ret (fold_left (fun result chunk => result +:+ chunk) chunks "").
End Agent.

(** ** What one stream amounts to

    The text deltas of a stream in arrival order, its tool-call fragments in
    arrival order, and the finish reason its last chunk leaves behind. *)
Definition text_deltas (chunks : list Chunk.t) : list string :=
  supplied (Chunk.content <$> chunks).

Definition fragments (chunks : list Chunk.t) : list Delta.t :=
  concat ((fun chunk => default [] (Chunk.tool_calls chunk)) <$> chunks).

Definition terminal_finish_reason (chunks : list Chunk.t) : option string :=
  match last chunks with
  | Some chunk => Chunk.finish_reason chunk
  | None => None
  end.

Definition round_of (chunks : list Chunk.t) : Round :=
  {| currentContent := joined (text_deltas chunks);
     toolCalls := assemble (fragments chunks);
     finishReason := terminal_finish_reason chunks |}.

(** ** Vocabulary of the statements *)

(** [m] is the tool-result message that answers the request [tc]. *)
Definition answers (tc : ToolCall) (m : Message) : Prop :=
  exists content, m = ToolMessage (id tc) content.

Definition is_invocation (e : Event) : Prop :=
  match e with
  | Invoked _ _ => True
  | Requested _ _ => False
  end.

(** What executing tool calls may change besides [messages]: the provider,
    and the log, which gains invocations only. *)
Definition tool_work `{env : Env} (s s' : State) : Prop :=
  llm s' = llm s /\ mcpClient s' = mcpClient s /\
  initialized s' = initialized s /\ output s' = output s /\
  exists invocations,
    events s' = events s ++ invocations /\ Forall is_invocation invocations.

(** An array without holes. *)
Definition dense {A} (l : list (option A)) : Prop :=
  forall i, i < length l -> is_Some (arr_get l i).

(** One past the highest position the fragments name: the length of the
    array they build. *)
Definition span (frs : list Delta.t) : nat :=
  foldr (fun d n => Nat.max (S (Delta.index d)) n) 0 frs.

(** The state in which the [for await] loop over [stream] ends: the request
    is logged, the service has moved on to [l], the text deltas are out. *)
Definition streamed `{env : Env} (tools : list OpenAITool.t) (stream : Stream.t)
           (l : LLM) (s : State) : State :=
  set_output (output s ++ text_deltas (Stream.chunks stream))
    (set_llm l
       (set_events (events s ++ [Requested (messages s) (offered tools)]) s)).

(** The tool invocations and the advertised tool lists of the completion
    requests that a log records, in order. *)
Definition invocations (es : list Event) : list (string * Json) :=
  omap (fun e => match e with
                 | Invoked name args => Some (name, args)
                 | Requested _ _ => None
                 end) es.

Definition advertised (es : list Event) : list (option (list OpenAITool.t)) :=
  omap (fun e => match e with
                 | Requested _ tools => Some tools
                 | Invoked _ _ => None
                 end) es.

(** C2 as the specification words it: the identifier and the function name
    of every assembled request are those of the FIRST fragment of its position
    that supplies them. *)
Definition first_fragment_wins (frs : list Delta.t) : Prop :=
  forall i tc,
    arr_get (assemble frs) i = Some tc ->
    id tc = first_supplied (Delta.id <$> fragments_at i frs) /\
    name (function tc) = first_supplied (Delta.name <$> fragments_at i frs).

(** ** Scripted environments

    A completion service that replays a list of streams, and a provider whose
    handshake, catalog and tool are given; [JSON.parse] accepts the empty
    object only and [JSON.stringify] does no escaping. *)
Definition quoted (s : string) : string :=
  String (ascii_of_nat 34) s +:+ String (ascii_of_nat 34) "".

Fixpoint stringify (v : Json) : string :=
  match v with
  | JNull => "null"
  | JBool true => "true"
  | JBool false => "false"
  | JNum n => pretty n
  | JStr s => quoted s
  | JArr items => "[" +:+ String.concat "," (map stringify items) +:+ "]"
  | JObj fields =>
      "{" +:+ String.concat ","
                (map (fun field =>
                        match field with
                        | (key, value) => quoted key +:+ ":" +:+ stringify value
                        end) fields)
      +:+ "}"
  end.

Definition parse_empty_object (text : string) : Json + Thrown :=
  if String.eqb text "{}" then inl (JObj [])
  else inr (JsError "Unexpected end of JSON input").

Record Script : Type := {
  completions : list Stream.t;
  handshake : unit + Thrown;
  catalog : list SdkTool.t + Thrown;
  tool : string -> Json -> Json + Thrown;
}.

Definition scripted (script : Script) : Env :=
  {| JSON_parse := parse_empty_object;
     JSON_stringify := stringify;
     Provider := unit;
     sdk_connect := fun p => (handshake script, p);
     sdk_listTools := fun p => (catalog script, p);
     sdk_callTool := fun p name args => (tool script name args, p);
     sdk_close := fun p => (inl tt, p);
     LLM := nat;
     create := fun n _ _ =>
       (match completions script !! n with
        | Some stream => inl stream
        | None => inr (JsError "Connection error.")
        end, S n);
     systemPrompt := "You are an Azure assistant." |}.

(** A new agent, and an agent that has connected and cached [tools]. *)
Definition new_agent (script : Script) : @State (scripted script) :=
  @Build_State (scripted script) 0 tt Client.fresh false [] [] [].

Definition ready_agent (script : Script) (tools : list MCPTool.t)
  : @State (scripted script) :=
  @Build_State (scripted script) 0 tt
    {| Client.client := true; Client.transport := true;
       Client.tools := tools; Client.isConnected := true |}
    true [] [] [].

Definition list_storage_accounts : SdkTool.t :=
  {| SdkTool.name := "list_storage_accounts";
     SdkTool.description := Some "Lists the storage accounts";
     SdkTool.inputSchema := JObj [("type", JStr "object")] |}.

(** A stream that asks for one call of [list_storage_accounts], as a single
    fragment at position [index]. *)
Definition call_at (index : nat) : Stream.t :=
  {| Stream.chunks :=
       [ {| Chunk.content := None;
            Chunk.tool_calls :=
              Some [ {| Delta.index := index; Delta.id := Some "call_1";
                        Delta.name := Some "list_storage_accounts";
                        Delta.arguments := Some "{}" |} ];
            Chunk.finish_reason := None |};
         {| Chunk.content := None; Chunk.tool_calls := None;
            Chunk.finish_reason := Some "tool_calls" |} ];
     Stream.failure := None |}.

Definition final_answer : Stream.t :=
  {| Stream.chunks :=
       [ {| Chunk.content := Some "You have 2 storage accounts: ";
            Chunk.tool_calls := None; Chunk.finish_reason := None |};
         {| Chunk.content := Some "acct1, acct2.";
            Chunk.tool_calls := None; Chunk.finish_reason := Some "stop" |} ];
     Stream.failure := None |}.

Definition accounts (name : string) (args : Json) : Json + Thrown :=
  inl (JArr [JStr "acct1"; JStr "acct2"]).

(** The model asks for the tool at position 0, then answers. *)
Definition storage_script : Script :=
  {| completions := [call_at 0; final_answer];
     handshake := inl tt;
     catalog := inl [list_storage_accounts];
     tool := accounts |}.

(** The model names position 1 only. *)
Definition sparse_script : Script :=
  {| completions := [call_at 1; final_answer];
     handshake := inl tt;
     catalog := inl [list_storage_accounts];
     tool := accounts |}.

(** The provider offers no tools, and the model asks for one all the same. *)
Definition uninvited_script : Script :=
  {| completions := [call_at 0; final_answer];
     handshake := inl tt;
     catalog := inl [];
     tool := accounts |}.

(** The provider offers no tools, and the model just answers. *)
Definition plain_script : Script :=
  {| completions := [final_answer];
     handshake := inl tt;
     catalog := inl [];
     tool := accounts |}.

(** The handshake succeeds and the retrieval of the catalog fails. *)
Definition broken_catalog_script : Script :=
  {| completions := [final_answer];
     handshake := inl tt;
     catalog := inr (JsError "Request timed out");
     tool := accounts |}.

(** Two fragments of one position that both carry an identifier. *)
Definition renamed_fragments : list Delta.t :=
  [ {| Delta.index := 0; Delta.id := Some "call_a";
       Delta.name := Some "list_storage_accounts"; Delta.arguments := Some "{" |};
    {| Delta.index := 0; Delta.id := Some "call_b";
       Delta.name := None; Delta.arguments := Some "}" |} ].

(** Fragments for position 0, then position 1, then more of position 0. *)
Definition interleaved_fragments : list Delta.t :=
  [ {| Delta.index := 0; Delta.id := Some "call_a";
       Delta.name := None; Delta.arguments := Some "{" |};
    {| Delta.index := 1; Delta.id := None;
       Delta.name := Some "get_resource"; Delta.arguments := Some "{}" |};
    {| Delta.index := 0; Delta.id := None;
       Delta.name := Some "list_storage_accounts"; Delta.arguments := Some "}" |};
    {| Delta.index := 1; Delta.id := Some "call_b";
       Delta.name := None; Delta.arguments := None |} ].

(** The tool fails. *)
Definition denied (name : string) (args : Json) : Json + Thrown :=
  inr (JsError "Access denied").

Definition denied_script : Script :=
  {| completions := [call_at 0; final_answer];
     handshake := inl tt;
     catalog := inl [list_storage_accounts];
     tool := denied |}.

(** The request that [call_at] builds, and one whose arguments are not JSON. *)
Definition storage_request : ToolCall :=
  {| id := "call_1";
     function := {| name := "list_storage_accounts"; arguments := "{}" |} |}.

Definition unparsable_request : ToolCall :=
  {| id := "call_1";
     function := {| name := "list_storage_accounts"; arguments := "" |} |}.

(** One turn of a new agent under a script. *)
Definition turn (script : Script) : Result unit * @State (scripted script) :=
  runStream 5 "List storage accounts" [] (new_agent script).

(** ** Launching the provider

    The options [AzureMCPClient] is constructed with, the part of
    [AgentConfig] that [AzureMCPAgent] passes on to it, and what [connect]
    hands to the transport: the arguments of [npx] and the environment of the
    child process. *)
Module ClientConfig.
Record t : Type := mk {
  clientId : string;
  clientSecret : string;
  tenantId : string;
  subscriptionId : string;
  namespaces : option (list string);
  readOnly : option bool;
}.
End ClientConfig.

(** [config.azureMCP] *)
Module AzureMCPConfig.
Record t : Type := mk {
  clientId : string;
  clientSecret : string;
  tenantId : string;
  subscriptionId : string;
  namespaces : option (list string);
  readOnly : option bool;
}.
End AzureMCPConfig.

(** The argument of [new AzureMCPClient({...})] in the constructor of
    [AzureMCPAgent]: [readOnly: config.azureMCP.readOnly ?? true]. *)
Definition mcp_client_config (config : AzureMCPConfig.t) : ClientConfig.t :=
  {| ClientConfig.clientId := AzureMCPConfig.clientId config;
     ClientConfig.clientSecret := AzureMCPConfig.clientSecret config;
     ClientConfig.tenantId := AzureMCPConfig.tenantId config;
     ClientConfig.subscriptionId := AzureMCPConfig.subscriptionId config;
     ClientConfig.namespaces := AzureMCPConfig.namespaces config;
     ClientConfig.readOnly :=
       Some (match AzureMCPConfig.readOnly config with
             | Some flag => flag
             | None => true
             end) |}.

(** [this.config.namespaces || ["storage", "resources", "resourcegraph"]]:
    an array, even an empty one, is kept. *)
Definition enabled_namespaces (config : ClientConfig.t) : list string :=
  match ClientConfig.namespaces config with
  | Some namespaces => namespaces
  | None => ["storage"; "resources"; "resourcegraph"]
  end.

(** [args] as [connect] builds it: the four fixed arguments, then
    [args.push("--namespace", ns)] for each namespace, then
    [args.push("--read-only")] if [this.config.readOnly]. *)
Definition connect_args (config : ClientConfig.t) : list string :=
  let args := ["-y"; "@azure/mcp@latest"; "server"; "start"] in
  let args :=
    fold_left (fun args ns => args ++ ["--namespace"; ns])
      (enabled_namespaces config) args in
  if match ClientConfig.readOnly config with
     | Some flag => flag
     | None => false
     end
  then args ++ ["--read-only"]
  else args.

(** [env] of the transport: [{ ...process.env, AZURE_CLIENT_ID: ..., ... }]. *)
Definition transport_env (process_env : gmap string string)
           (config : ClientConfig.t) : gmap string string :=
  <["NODE_NO_WARNINGS" := "1"]>
    (<["AZURE_SUBSCRIPTION_ID" := ClientConfig.subscriptionId config]>
       (<["AZURE_TENANT_ID" := ClientConfig.tenantId config]>
          (<["AZURE_CLIENT_SECRET" := ClientConfig.clientSecret config]>
             (<["AZURE_CLIENT_ID" := ClientConfig.clientId config]> process_env)))).

(** ** The server *)

Definition requiredEnvVars : list string :=
  [ "AZURE_OPENAI_ENDPOINT";
    "AZURE_OPENAI_API_KEY";
    "AZURE_OPENAI_DEPLOYMENT";
    "AZURE_CLIENT_ID";
    "AZURE_CLIENT_SECRET";
    "AZURE_TENANT_ID";
    "AZURE_SUBSCRIPTION_ID" ].

(** [for (const envVar of vars) { if (!process.env[envVar]) { ...;
    process.exit(1); } }]: the variable at which the process exits, if any. *)
Fixpoint first_missing (vars : list string) (process_env : gmap string string)
  : option string :=
  match vars with
  | [] => None
  | envVar :: vars =>
      if truthy (process_env !! envVar) then first_missing vars process_env
      else Some envVar
  end.

(** The validation of the environment at startup. *)
Definition validate_env (process_env : gmap string string) : option string :=
  first_missing requiredEnvVars process_env.

(** [!message] on [req.body.message], [None] being [undefined]. *)
Definition falsy (message : option Json) : bool :=
  match message with
  | None => true
  | Some JNull => true
  | Some (JBool b) => negb b
  | Some (JNum n) => Z.eqb n 0
  | Some (JStr s) => String.eqb s ""
  | Some (JArr _) => false
  | Some (JObj _) => false
  end.

(** [typeof message !== "string"] *)
Definition not_a_string (message : option Json) : bool :=
  match message with
  | Some (JStr _) => false
  | _ => true
  end.

(** The string that a [message] of type string is. *)
Definition string_of (message : option Json) : string :=
  match message with
  | Some (JStr s) => s
  | _ => ""
  end.

(** What a handler has done to [res] when it returns: replied with
    [res.status(status).json(body)], or written [chunks] with [res.write] and
    ended the response with [res.end(closing)]; [Pending] is a handler that
    has not returned within the fuel, having written [chunks]. *)
Inductive Response : Type :=
| JsonReply (status : nat) (body : Json)
| Chunked (chunks : list string) (closing : option string)
| Pending (chunks : list string).

Definition message_required : Json :=
  JObj [("error", JStr "Message is required")].

(** The body of the replies with status 500. *)
Definition internal_error (error : Thrown) : Json :=
  JObj [("error", JStr "An error occurred while processing your request");
        ("details", JStr (error_message error))].

Definition error_trailer : string :=
  "

[Error: Something went wrong]".

Section Server.
Context `{env : Env}.

(** A generator run from its consumer: how it ends, and the chunks it has
    handed over until then. *)
Definition collect (generator : M unit) (s : State)
  : Result unit * list string * State :=
  match generator (set_output [] s) with
  | (r, s') => (r, output s', set_output (output s) s')
  end.

(** The handler of [POST /chat] from the test of [message] on, [message]
    being what [const { message } = req.body] has read; [post_chat] below is
    the whole handler.  [res.headersSent] holds once a chunk has been
    written. *)
Definition chat (fuel : nat) (message : option Json) (s : State)
  : Response * State :=
  if falsy message || not_a_string message
  then (JsonReply 400 message_required, s)
  else
    match collect (runStream fuel (string_of message) []) s with
    | (Ok _, chunks, s') => (Chunked chunks None, s')
    | (Throw error, chunks, s') =>
        (match chunks with
         | [] => JsonReply 500 (internal_error error)
         | _ :: _ => Chunked chunks (Some error_trailer)
         end, s')
    | (OutOfFuel, chunks, s') => (Pending chunks, s')
    end.

(** The handler of [POST /chat/sync] from the test of [message] on;
    [post_chat_sync] below is the whole handler. *)
Definition chat_sync (fuel : nat) (message : option Json) (s : State)
  : Response * State :=
  if falsy message || not_a_string message
  then (JsonReply 400 message_required, s)
  else
    match run fuel (string_of message) s with
    | (Ok response, s') => (JsonReply 200 (JObj [("response", JStr response)]), s')
    | (Throw error, s') => (JsonReply 500 (internal_error error), s')
    | (OutOfFuel, s') => (Pending [], s')
    end.

(** What the agent's methods keep: an initialized agent has a connected
    client, and a connected client has its SDK client object. *)
Definition agent_ok (s : State) : Prop :=
  (initialized s = true -> Client.isConnected (mcpClient s) = true) /\
  (Client.isConnected (mcpClient s) = true -> Client.client (mcpClient s) = true).

(** The invocation that the request [tc] leads to: none when its arguments
    are not JSON. *)
Definition invocation_of (tc : ToolCall) : option (string * Json) :=
  match JSON_parse (arguments (function tc)) with
  | inl args => Some (name (function tc), args)
  | inr _ => None
  end.

(** The tool that the model is offered for a tool of the provider. *)
Definition advertised_tool (tool : SdkTool.t) : OpenAITool.t :=
  {| OpenAITool.name := SdkTool.name tool;
     OpenAITool.description :=
       match SdkTool.description tool with
       | Some text => text
       | None => ""
       end;
     OpenAITool.parameters := SdkTool.inputSchema tool |}.
End Server.

(** The tool provider cannot be launched. *)
Definition unreachable_script : Script :=
  {| completions := [final_answer];
     handshake := inr (JsError "spawn npx ENOENT");
     catalog := inl [list_storage_accounts];
     tool := accounts |}.

(** The model asks for a tool whose arguments are not JSON, then for the
    storage accounts, in one round. *)
Definition two_calls : Stream.t :=
  {| Stream.chunks :=
       [ {| Chunk.content := Some "Let me check.";
            Chunk.tool_calls :=
              Some [ {| Delta.index := 0; Delta.id := Some "call_0";
                        Delta.name := Some "get_resource";
                        Delta.arguments := None |} ];
            Chunk.finish_reason := None |};
         {| Chunk.content := None;
            Chunk.tool_calls :=
              Some [ {| Delta.index := 1; Delta.id := Some "call_1";
                        Delta.name := Some "list_storage_accounts";
                        Delta.arguments := Some "{}" |} ];
            Chunk.finish_reason := Some "tool_calls" |} ];
     Stream.failure := None |}.

Definition two_calls_script : Script :=
  {| completions := [two_calls; final_answer];
     handshake := inl tt;
     catalog := inl [list_storage_accounts];
     tool := accounts |}.

(** The configuration of the server's agent, and one that leaves the
    namespaces and the mode to the defaults. *)
Definition server_config : AzureMCPConfig.t :=
  {| AzureMCPConfig.clientId := "client";
     AzureMCPConfig.clientSecret := "secret";
     AzureMCPConfig.tenantId := "tenant";
     AzureMCPConfig.subscriptionId := "subscription";
     AzureMCPConfig.namespaces := Some ["storage"; "resources"; "resourcegraph"];
     AzureMCPConfig.readOnly := Some true |}.

Definition default_config : AzureMCPConfig.t :=
  {| AzureMCPConfig.clientId := "client";
     AzureMCPConfig.clientSecret := "secret";
     AzureMCPConfig.tenantId := "tenant";
     AzureMCPConfig.subscriptionId := "subscription";
     AzureMCPConfig.namespaces := None;
     AzureMCPConfig.readOnly := None |}.


(** The flags and values that [connect] appends for the namespaces. *)
Definition namespace_flags (namespaces : list string) : list string :=
  namespaces ≫= (fun ns => ["--namespace"; ns]).

(** A message that the handlers accept: a string that is not empty. *)
Definition acceptable (message : option Json) : Prop :=
  exists text, message = Some (JStr text) /\ text <> "".

(** The variable is set to a value that is not the empty string. *)
Definition is_set (process_env : gmap string string) (envVar : string) : Prop :=
  exists value, process_env !! envVar = Some value /\ value <> "".

(** The request of [two_calls] whose arguments are not JSON. *)
Definition resource_request : ToolCall :=
  {| id := "call_0";
     function := {| name := "get_resource"; arguments := "" |} |}.

(** An environment in which the second required variable is empty. *)
Definition partial_env : gmap string string :=
  {[ "AZURE_OPENAI_ENDPOINT" := "https://example.openai.azure.com";
     "AZURE_OPENAI_API_KEY" := "";
     "AZURE_OPENAI_DEPLOYMENT" := "gpt-4o" ]}.

Definition hello : option Json := Some (JStr "Hello").

(** A client constructed on its own, with the namespaces and the mode left
    out. *)
Definition bare_client : ClientConfig.t :=
  {| ClientConfig.clientId := "client";
     ClientConfig.clientSecret := "secret";
     ClientConfig.tenantId := "tenant";
     ClientConfig.subscriptionId := "subscription";
     ClientConfig.namespaces := None;
     ClientConfig.readOnly := None |}.

(** The connection to the completion service breaks after the first text. *)
Definition interrupted : Stream.t :=
  {| Stream.chunks :=
       [ {| Chunk.content := Some "You have ";
            Chunk.tool_calls := None; Chunk.finish_reason := None |} ];
     Stream.failure := Some (JsError "Connection error.") |}.

Definition interrupted_script : Script :=
  {| completions := [interrupted];
     handshake := inl tt;
     catalog := inl [];
     tool := accounts |}.

(** ** The body of a request *)

(** The property [key] of an object: what its last binding of [key] holds,
    as [JSON.parse] keeps the last of several. *)
Fixpoint field (key : string) (fields : list (string * Json)) : option Json :=
  match fields with
  | [] => None
  | (k, value) :: fields =>
      match field key fields with
      | Some later => Some later
      | None => if String.eqb k key then Some value else None
      end
  end.

(** The [TypeError] of destructuring [undefined] or [null]. *)
Definition cannot_destructure (what : string) : Thrown :=
  JsError ("Cannot destructure property 'message' of 'req.body' as it is "
           +:+ what +:+ ".").

(** [const { message } = req.body], [None] being a body that is
    [undefined]: the property of an object, [undefined] on any other value
    that has properties, and a [TypeError] on [undefined] and [null]. *)
Definition message_of (body : option Json) : Thrown + option Json :=
  match body with
  | None => inl (cannot_destructure "undefined")
  | Some JNull => inl (cannot_destructure "null")
  | Some (JObj fields) => inr (field "message" fields)
  | Some _ => inr None
  end.

Section Handlers.
Context `{env : Env}.

(** [app.post("/chat", ...)]: the destructuring is inside the [try], and
    nothing has been written when it throws. *)
Definition post_chat (fuel : nat) (body : option Json) (s : State)
  : Response * State :=
  match message_of body with
  | inl error => (JsonReply 500 (internal_error error), s)
  | inr message => chat fuel message s
  end.

(** [app.post("/chat/sync", ...)] *)
Definition post_chat_sync (fuel : nat) (body : option Json) (s : State)
  : Response * State :=
  match message_of body with
  | inl error => (JsonReply 500 (internal_error error), s)
  | inr message => chat_sync fuel message s
  end.
End Handlers.

(** The model leaves position 1 out after a request whose arguments are not
    JSON. *)
Definition gap_after_unparsable : Stream.t :=
  {| Stream.chunks :=
       [ {| Chunk.content := None;
            Chunk.tool_calls :=
              Some [ {| Delta.index := 0; Delta.id := Some "call_0";
                        Delta.name := Some "get_resource";
                        Delta.arguments := None |};
                     {| Delta.index := 2; Delta.id := Some "call_1";
                        Delta.name := Some "list_storage_accounts";
                        Delta.arguments := Some "{}" |} ];
            Chunk.finish_reason := Some "tool_calls" |} ];
     Stream.failure := None |}.

Definition gap_script : Script :=
  {| completions := [gap_after_unparsable; final_answer];
     handshake := inl tt;
     catalog := inl [list_storage_accounts];
     tool := accounts |}.

(** A body without a [message]. *)
Definition no_message : option Json :=
  Some (JObj [("text", JStr "Hello")]).

(** * Properties *)

Lemma arr_get_set {A} (l : list (option A)) (i j : nat) (v : A) :
  arr_get (arr_set l i v) j = if decide (i = j) then Some v else arr_get l j.
Proof.
  unfold arr_get, arr_set.
  destruct (Nat.ltb_spec i (length l)) as [Hlt | Hge].
  - destruct (decide (i = j)) as [-> | Hne].
    + by rewrite list_lookup_insert_eq.
    + by rewrite list_lookup_insert_ne.
  - destruct (decide (i = j)) as [<- | Hne].
    + rewrite lookup_app_r by lia.
      rewrite lookup_app_r by (rewrite length_replicate; lia).
      rewrite length_replicate.
      by replace (i - length l - (i - length l)) with 0 by lia.
    + destruct (decide (j < length l)) as [Hj | Hj].
      * by rewrite lookup_app_l.
      * rewrite (lookup_ge_None_2 l j) by lia.
        rewrite lookup_app_r by lia.
        destruct (decide (j - length l < i - length l)) as [Hr | Hr].
        -- rewrite lookup_app_l by (rewrite length_replicate; lia).
           rewrite lookup_replicate_2 by lia. done.
        -- rewrite lookup_app_r by (rewrite length_replicate; lia).
           rewrite length_replicate.
           rewrite lookup_ge_None_2; [done | simpl; lia].
Qed.

Lemma arr_get_update {A} (l : list (option A)) (i j : nat) (f : A -> A) :
  arr_get (arr_update l i f) j =
  if decide (i = j) then f <$> arr_get l j else arr_get l j.
Proof.
  unfold arr_get, arr_update.
  destruct (decide (i = j)) as [-> | Hne].
  - rewrite list_lookup_alter_eq.
    by destruct (l !! j) as [[v|]|].
  - by rewrite list_lookup_alter_ne.
Qed.

Lemma length_arr_set {A} (l : list (option A)) (i : nat) (v : A) :
  length (arr_set l i v) = Nat.max (length l) (S i).
Proof.
  unfold arr_set.
  destruct (Nat.ltb_spec i (length l)).
  - rewrite length_insert. lia.
  - rewrite !length_app, length_replicate. simpl. lia.
Qed.

Lemma length_arr_update {A} (l : list (option A)) (i : nat) (f : A -> A) :
  length (arr_update l i f) = length l.
Proof. unfold arr_update. by rewrite length_alter. Qed.

Lemma accumulate_get (l : list (option ToolCall)) (d : Delta.t) (j : nat) :
  arr_get (accumulate l d) j =
  if decide (Delta.index d = j) then Some (entry_step (arr_get l j) d)
  else arr_get l j.
Proof.
  unfold accumulate, entry_step.
  destruct (decide (Delta.index d = j)) as [<- | Hne].
  - destruct (arr_get l (Delta.index d)) as [tc|] eqn:Hget;
      destruct (truthy (Delta.id d)), (truthy (Delta.name d)),
        (truthy (Delta.arguments d));
      repeat (rewrite arr_get_update; rewrite decide_True by done);
      rewrite ?arr_get_set, ?decide_True by done; rewrite ?Hget; done.
  - destruct (arr_get l (Delta.index d)) as [tc|] eqn:Hget;
      destruct (truthy (Delta.id d)), (truthy (Delta.name d)),
        (truthy (Delta.arguments d));
      repeat (rewrite arr_get_update; rewrite decide_False by done);
      rewrite ?arr_get_set, ?decide_False by done; done.
Qed.

Lemma length_accumulate (l : list (option ToolCall)) (d : Delta.t) :
  length (accumulate l d) = Nat.max (length l) (S (Delta.index d)).
Proof.
  unfold accumulate.
  assert (Hinit : length (match arr_get l (Delta.index d) with
                          | Some _ => l
                          | None => arr_set l (Delta.index d)
                              {| id := or_empty (Delta.id d);
                                 function := {| name := ""; arguments := "" |} |}
                          end) = Nat.max (length l) (S (Delta.index d))).
  { destruct (arr_get l (Delta.index d)) eqn:Hget.
    - unfold arr_get in Hget.
      destruct (l !! Delta.index d) eqn:Hl; [|done].
      apply lookup_lt_Some in Hl. lia.
    - apply length_arr_set. }
  destruct (truthy (Delta.id d)), (truthy (Delta.name d)),
    (truthy (Delta.arguments d));
    rewrite ?length_arr_update; exact Hinit.
Qed.

Lemma fold_accumulate_get (frs : list Delta.t) (l : list (option ToolCall)) (j : nat) :
  arr_get (fold_left accumulate frs l) j =
  fold_left (fun o d => Some (entry_step o d)) (fragments_at j frs) (arr_get l j).
Proof.
  revert l. induction frs as [|d frs IH]; intros l; [done|].
  simpl. rewrite IH, accumulate_get. unfold fragments_at.
  rewrite filter_cons.
  destruct (decide (Delta.index d = j)); done.
Qed.

Lemma supplied_cons (o : option string) (fields : list (option string)) :
  supplied (o :: fields) =
  if truthy o then or_empty o :: supplied fields else supplied fields.
Proof.
  unfold supplied. simpl.
  destruct o as [s|]; simpl; [|done].
  destruct (String.eqb s ""); done.
Qed.

Lemma string_append_assoc (a b c : string) : (a +:+ b) +:+ c = a +:+ (b +:+ c).
Proof.
  induction a as [|ch a IH]; [done|].
  change (String ch ((a +:+ b) +:+ c) = String ch (a +:+ (b +:+ c))).
  by rewrite IH.
Qed.

Lemma string_append_empty_r (a : string) : a +:+ "" = a.
Proof.
  induction a as [|ch a IH]; [done|].
  change (String ch (a +:+ "") = String ch a).
  by rewrite IH.
Qed.

Lemma fold_entry_step (fs : list Delta.t) (tc : ToolCall) :
  fold_left (fun o d => Some (entry_step o d)) fs (Some tc) =
  Some {| id := default (id tc) (last (supplied (Delta.id <$> fs)));
          function :=
            {| name := default (name (function tc))
                         (last (supplied (Delta.name <$> fs)));
               arguments := arguments (function tc)
                            +:+ joined (supplied (Delta.arguments <$> fs)) |} |}.
Proof.
  revert tc. induction fs as [|d fs IH]; intros [i [n a]].
  - simpl. by rewrite string_append_empty_r.
  - cbn [fold_left]. rewrite IH. rewrite !fmap_cons, !supplied_cons.
    unfold entry_step.
    destruct (truthy (Delta.id d)), (truthy (Delta.name d)),
      (truthy (Delta.arguments d)); simpl;
      rewrite ?last_cons; repeat case_match; simpl;
      rewrite ?string_append_assoc; done.
Qed.

(** ** The monad *)

Section Properties.
Context `{env : Env}.

#[local] Notation "x <- m ;; k" := (bind m (fun x => k))
  (at level 100, m at next level, right associativity).
#[local] Notation "m ;; k" := (bind m (fun _ => k))
  (at level 100, right associativity).

Lemma fold_accumulate_app (xs ys : list Delta.t) (l : list (option ToolCall)) :
  fold_left accumulate (xs ++ ys) l = fold_left accumulate ys (fold_left accumulate xs l).
Proof. apply fold_left_app. Qed.

(** The [for await] loop from any point of the stream. *)
Lemma for_await_spec (chunks : list Chunk.t) (r : Round) (s : State) :
  for_await chunks r s =
  (Ok {| currentContent := currentContent r +:+ joined (text_deltas chunks);
         toolCalls := fold_left accumulate (fragments chunks) (toolCalls r);
         finishReason := match last chunks with
                         | Some chunk => Chunk.finish_reason chunk
                         | None => finishReason r
                         end |},
   set_output (output s ++ text_deltas chunks) s).
Proof.
  revert r s. induction chunks as [|chunk chunks IH]; intros r s.
  - destruct r, s. unfold text_deltas, set_output. simpl.
    by rewrite string_append_empty_r, app_nil_r.
  - cbn [for_await]. unfold bind at 1.
    unfold text_deltas, fragments in *.
    rewrite !fmap_cons, supplied_cons. cbn [concat].
    rewrite fold_accumulate_app, last_cons.
    unfold on_chunk, bind, yield, modify, ret.
    destruct (truthy (Chunk.content chunk));
      destruct (Chunk.tool_calls chunk) as [tcs|];
      rewrite IH; cbn -[String.append];
      destruct (last chunks); unfold set_output; cbn;
      rewrite ?string_append_assoc, <- ?app_assoc; done.
Qed.

Lemma consume_spec (stream : Stream.t) (s : State) :
  consume stream s =
  (match Stream.failure stream with
   | Some e => Throw e
   | None => Ok (round_of (Stream.chunks stream))
   end,
   set_output (output s ++ text_deltas (Stream.chunks stream)) s).
Proof.
  unfold consume, bind. rewrite for_await_spec.
  destruct (Stream.failure stream); done.
Qed.

(** ** Calling a tool *)

Lemma tool_work_refl (s : State) : tool_work s s.
Proof.
  repeat split. exists []. by rewrite app_nil_r.
Qed.

Lemma tool_work_trans (s1 s2 s3 : State) :
  tool_work s1 s2 -> tool_work s2 s3 -> tool_work s1 s3.
Proof.
  intros (Hl1 & Hc1 & Hi1 & Ho1 & inv1 & He1 & Hf1)
         (Hl2 & Hc2 & Hi2 & Ho2 & inv2 & He2 & Hf2).
  repeat split; try congruence.
  exists (inv1 ++ inv2). split.
  - by rewrite He2, He1, app_assoc.
  - by apply Forall_app.
Qed.

Lemma callTool_disconnected (name : string) (args : Json) (s : State) :
  Client.client (mcpClient s) = false \/ Client.isConnected (mcpClient s) = false ->
  callTool name args s = (Throw (JsError "MCP client not connected"), s).
Proof.
  intros H. unfold callTool, bind, gets.
  destruct H as [-> | ->]; [done|].
  by rewrite orb_true_r.
Qed.

Lemma callTool_connected (name : string) (args : Json) (s : State) :
  Client.client (mcpClient s) = true ->
  Client.isConnected (mcpClient s) = true ->
  callTool name args s =
  (match fst (sdk_callTool (provider s) name args) with
   | inl result => Ok result
   | inr e => Throw e
   end,
   set_provider (snd (sdk_callTool (provider s) name args))
     (set_events (events s ++ [Invoked name args]) s)).
Proof.
  intros Hc Hi. unfold callTool, bind, gets, log, modify, provider_call.
  rewrite Hc, Hi. cbn.
  by destruct (sdk_callTool (provider s) name args) as [[result | e] p].
Qed.

Lemma callTool_frame (name : string) (args : Json) (s : State) :
  fst (callTool name args s) <> OutOfFuel /\
  messages (snd (callTool name args s)) = messages s /\
  tool_work s (snd (callTool name args s)).
Proof.
  destruct (Client.client (mcpClient s)) eqn:Hc;
    [destruct (Client.isConnected (mcpClient s)) eqn:Hi|].
  - rewrite callTool_connected by done.
    destruct (sdk_callTool (provider s) name args) as [[result | e] p]; cbn;
      (split; [done|]); (split; [done|]); repeat split;
      exists [Invoked name args]; split; try done; by repeat constructor.
  - rewrite callTool_disconnected by auto. cbn.
    split; [done|]. split; [done|]. apply tool_work_refl.
  - rewrite callTool_disconnected by auto. cbn.
    split; [done|]. split; [done|]. apply tool_work_refl.
Qed.

(** An entry that is there always gets its one tool-result message. *)
Lemma execute_some (tc : ToolCall) (s : State) :
  exists content s',
    execute (Some tc) s = (Ok tt, s') /\
    messages s' = messages s ++ [ToolMessage (id tc) content] /\
    tool_work s s'.
Proof.
  unfold execute, try_catch, bind, deref, parse, ret, throw, push, modify.
  destruct (JSON_parse (arguments (function tc))) as [args | e].
  - destruct (callTool_frame (name (function tc)) args s) as (Hfuel & Hm & Hw).
    destruct (callTool (name (function tc)) args s) as [[result | e |] s1];
      cbn in *; [| |done].
    + eexists _, _. split; [done|]. cbn. rewrite Hm. split; [done|].
      destruct Hw as (? & ? & ? & ? & ?). by repeat split.
    + eexists _, _. split; [done|]. cbn. rewrite Hm. split; [done|].
      destruct Hw as (? & ? & ? & ? & ?). by repeat split.
  - eexists _, _. split; [done|]. cbn. split; [done|].
    apply (tool_work_refl s).
Qed.

(** A hole makes the body throw from inside its own handler. *)
Lemma execute_hole (s : State) :
  execute None s = (Throw undefined_read, s).
Proof. done. Qed.

(** Without holes the loop answers every request, once and in order. *)
Lemma for_of_execute_dense (tcs : list ToolCall) (s : State) :
  exists results s',
    for_of (Some <$> tcs) execute s = (Ok tt, s') /\
    messages s' = messages s ++ results /\
    Forall2 answers tcs results /\
    tool_work s s'.
Proof.
  revert s. induction tcs as [|tc tcs IH]; intros s.
  - exists [], s. split; [done|]. rewrite app_nil_r.
    split; [done|]. split; [constructor | apply tool_work_refl].
  - destruct (execute_some tc s) as (content & s1 & Hex & Hm1 & Hw1).
    destruct (IH s1) as (results & s2 & Hfor & Hm2 & Hans & Hw2).
    exists (ToolMessage (id tc) content :: results), s2.
    rewrite fmap_cons. cbn [for_of]. unfold bind at 1. rewrite Hex.
    split; [done|]. split.
    + rewrite Hm2, Hm1, <- app_assoc. done.
    + split; [|by eapply tool_work_trans].
      constructor; [by exists content | done].
Qed.

(** At the first hole the loop throws, after the entries before it and
    whatever comes after it. *)
Lemma for_of_execute_hole (tcs : list ToolCall) (rest : list (option ToolCall))
      (s : State) :
  for_of ((Some <$> tcs) ++ None :: rest) execute s =
  (Throw undefined_read, snd (for_of (Some <$> tcs) execute s)).
Proof.
  revert s. induction tcs as [|tc tcs IH]; intros s; [done|].
  destruct (execute_some tc s) as (content & s1 & Hex & _).
  rewrite fmap_cons. cbn [for_of app]. unfold bind. rewrite Hex.
  apply IH.
Qed.

(** ** Assembly of the fragments *)

Lemma length_fold_accumulate (frs : list Delta.t) (l : list (option ToolCall)) :
  length (fold_left accumulate frs l) = Nat.max (length l) (span frs).
Proof.
  revert l. induction frs as [|d frs IH]; intros l; simpl; [lia|].
  rewrite IH, length_accumulate. lia.
Qed.

Lemma length_assemble (frs : list Delta.t) :
  length (assemble frs) = span frs.
Proof. unfold assemble. by rewrite length_fold_accumulate. Qed.

Lemma span_zero (frs : list Delta.t) : span frs = 0 <-> frs = [].
Proof.
  destruct frs as [|d frs]; [done|]. simpl. split; [lia | done].
Qed.

Lemma assemble_get (frs : list Delta.t) (i : nat) :
  arr_get (assemble frs) i =
  match fragments_at i frs with
  | [] => None
  | _ :: _ => Some (request_of (fragments_at i frs))
  end.
Proof.
  unfold assemble. rewrite fold_accumulate_get.
  destruct (fragments_at i frs) as [|d fs]; [done|].
  cbn [fold_left]. rewrite fold_entry_step.
  unfold request_of, last_supplied, entry_step.
  rewrite !fmap_cons, !supplied_cons.
  destruct (truthy (Delta.id d)) eqn:Hid, (truthy (Delta.name d)) eqn:Hname,
    (truthy (Delta.arguments d)) eqn:Hargs; cbn -[String.append];
    rewrite ?last_cons;
    repeat match goal with
           | |- context [last ?l] => destruct (last l)
           end; cbn -[String.append];
    repeat match goal with
           | H : truthy ?o = false |- context [or_empty ?o] =>
               replace (or_empty o) with ""
                 by (destruct o as [v|]; [|done]; cbn in H |- *;
                     destruct (String.eqb_spec v ""); [by subst | done])
           end; done.
Qed.

Lemma fragments_at_elem (frs : list Delta.t) (d : Delta.t) :
  d ∈ frs -> fragments_at (Delta.index d) frs <> [].
Proof.
  intros Hin Hnil.
  assert (d ∈ fragments_at (Delta.index d) frs) as Hd
    by (unfold fragments_at; by apply list_elem_of_filter).
  rewrite Hnil in Hd. by apply not_elem_of_nil in Hd.
Qed.

(** Some request has been accumulated exactly when the array is not empty. *)
Lemma assemble_nonempty (frs : list Delta.t) :
  (exists i tc, arr_get (assemble frs) i = Some tc) <-> length (assemble frs) <> 0.
Proof.
  rewrite length_assemble, span_zero. split.
  - intros (i & tc & Hget) ->. done.
  - destruct frs as [|d frs]; [done|]. intros _.
    exists (Delta.index d). rewrite assemble_get.
    pose proof (fragments_at_elem (d :: frs) d (list_elem_of_here _ _)) as Hne.
    destruct (fragments_at (Delta.index d) (d :: frs)); [done | eauto].
Qed.

(** ** One iteration of the loop *)

Lemma runStream_loop_round (fuel : nat) (tools : list OpenAITool.t) (s : State)
      (stream : Stream.t) (l : LLM) :
  create (llm s) (messages s) (offered tools) = (inl stream, l) ->
  Stream.failure stream = None ->
  runStream_loop (S fuel) tools s =
  (if stops (round_of (Stream.chunks stream)) then ret tt
   else tool_round (round_of (Stream.chunks stream)) ;; runStream_loop fuel tools)
    (streamed tools stream l s).
Proof.
  intros Hcreate Hfail. cbn [runStream_loop].
  unfold bind at 1. unfold request. rewrite Hcreate.
  unfold bind at 1. rewrite consume_spec, Hfail.
  unfold after_stream, streamed.
  destruct (stops (round_of (Stream.chunks stream))); [done|].
  unfold bind, ret. cbn.
  match goal with
  | |- context [for_of ?xs ?body ?s0] =>
      by destruct (for_of xs body s0) as [[[] | e |] s']
  end.
Qed.

Lemma stops_false (r : Round) :
  stops r = false <->
  finishReason r = Some "tool_calls" /\ length (toolCalls r) <> 0.
Proof.
  unfold stops. rewrite orb_false_iff, negb_false_iff, Nat.eqb_neq.
  split; intros [Hreason Hlen]; split; try done.
  - destruct (finishReason r) as [reason|]; [|done].
    by apply String.eqb_eq in Hreason as ->.
  - by rewrite Hreason.
Qed.

Lemma fold_left_append (chunks : list string) (acc : string) :
  fold_left (fun result chunk => result +:+ chunk) chunks acc
  = acc +:+ joined chunks.
Proof.
  revert acc. induction chunks as [|chunk chunks IH]; intros acc; simpl.
  - by rewrite string_append_empty_r.
  - by rewrite IH, string_append_assoc.
Qed.

Lemma for_of_app {A} (xs ys : list A) (body : A -> M unit) (s : State) :
  for_of (xs ++ ys) body s = (for_of xs body ;; for_of ys body) s.
Proof.
  revert s. induction xs as [|x xs IH]; intros s; [done|].
  cbn [for_of app]. unfold bind.
  destruct (body x s) as [[[] | e |] s1]; [|done..].
  rewrite IH. done.
Qed.

Lemma round_continues (chunks : list Chunk.t) :
  stops (round_of chunks) = false <->
  terminal_finish_reason chunks = Some "tool_calls" /\
  exists i tc, arr_get (assemble (fragments chunks)) i = Some tc.
Proof.
  rewrite stops_false. cbn [finishReason toolCalls round_of].
  by rewrite assemble_nonempty.
Qed.

Lemma runStream_loop_returns (fuel : nat) (tools : list OpenAITool.t) (s : State)
      (stream : Stream.t) (l : LLM) :
  create (llm s) (messages s) (offered tools) = (inl stream, l) ->
  Stream.failure stream = None ->
  stops (round_of (Stream.chunks stream)) = true ->
  runStream_loop (S fuel) tools s = (Ok tt, streamed tools stream l s).
Proof.
  intros Hcreate Hfail Hstops.
  by rewrite (runStream_loop_round fuel tools s stream l Hcreate Hfail), Hstops.
Qed.

(** ** What a turn advertises *)

Lemma advertised_app (es1 es2 : list Event) :
  advertised (es1 ++ es2) = advertised es1 ++ advertised es2.
Proof. apply omap_app. Qed.

Lemma advertised_invocations (es : list Event) :
  Forall is_invocation es -> advertised es = [].
Proof.
  induction 1 as [|e es He _ IH]; [done|].
  destruct e; [done|]. exact IH.
Qed.

Lemma for_of_execute_events (calls : list (option ToolCall)) (s : State) :
  exists invocations,
    events (snd (for_of calls execute s)) = events s ++ invocations /\
    Forall is_invocation invocations.
Proof.
  revert s. induction calls as [|[tc|] calls IH]; intros s.
  - exists []. by rewrite app_nil_r.
  - destruct (execute_some tc s)
      as (content & s1 & Hex & _ & _ & _ & _ & _ & inv1 & Hev1 & Hinv1).
    destruct (IH s1) as (inv2 & Hev2 & Hinv2).
    exists (inv1 ++ inv2). cbn [for_of]. unfold bind. rewrite Hex.
    split; [by rewrite Hev2, Hev1, app_assoc | by apply Forall_app].
  - exists []. cbn [for_of]. unfold bind. rewrite execute_hole.
    by rewrite app_nil_r.
Qed.

(** The loop opens with a completion request over the current
    conversation, and every completion request of the loop advertises
    [offered tools]. *)
Lemma runStream_loop_advertised (fuel : nat) (tools : list OpenAITool.t) (s : State) :
  exists new,
    events (snd (runStream_loop fuel tools s)) = events s ++ new /\
    Forall (fun advert => advert = offered tools) (advertised new) /\
    (0 < fuel -> head new = Some (Requested (messages s) (offered tools))).
Proof.
  revert s. induction fuel as [|fuel IH]; intros s.
  - exists []. rewrite app_nil_r. split; [done|]. split; [done | lia].
  - cbn [runStream_loop]. unfold bind at 1. unfold request.
    destruct (create (llm s) (messages s) (offered tools)) as [[stream | e] l].
    2: { exists [Requested (messages s) (offered tools)]. split; [done|].
         split; [by repeat constructor | done]. }
    unfold bind at 1. rewrite consume_spec.
    destruct (Stream.failure stream) as [e|].
    { exists [Requested (messages s) (offered tools)]. split; [done|].
      split; [by repeat constructor | done]. }
    unfold after_stream.
    destruct (stops (round_of (Stream.chunks stream))).
    { exists [Requested (messages s) (offered tools)]. split; [done|].
      split; [by repeat constructor | done]. }
    unfold tool_round, bind, yield, push, modify, ret.
    match goal with
    | |- context [for_of ?calls execute ?s0] =>
        destruct (for_of_execute_events calls s0) as (inv & Hev & Hinv);
        destruct (for_of calls execute s0) as [[[] | e |] s1]
    end; cbn [snd] in Hev; cbn in Hev.
    + destruct (IH s1) as (new & Hnew & Hadv & _).
      exists (Requested (messages s) (offered tools) :: inv ++ new).
      split; [|split; [|done]].
      * rewrite Hnew. rewrite Hev. by rewrite <- !app_assoc.
      * cbn. constructor; [done|].
        by rewrite advertised_app, advertised_invocations.
    + exists (Requested (messages s) (offered tools) :: inv).
      split; [by cbn [snd]; rewrite Hev, <- app_assoc|].
      split; [|done].
      cbn. constructor; [done|]. by rewrite advertised_invocations.
    + exists (Requested (messages s) (offered tools) :: inv).
      split; [by cbn [snd]; rewrite Hev, <- app_assoc|].
      split; [|done].
      cbn. constructor; [done|]. by rewrite advertised_invocations.
Qed.

(** ** The claims *)

(** C2, as amended: for every finite sequence of streamed chunks the
    [for await] loop ends with an array that holds, at each position, the
    request built from the fragments of that position alone, whatever
    fragments of other positions come in between: none when no fragment
    names the position, and otherwise the request whose argument string is
    the argument chunks of those fragments concatenated in arrival order and
    whose identifier and function name are the ones of the LAST fragment of
    the position that supplies them (the empty string when none does). *)
Theorem assembly_by_position (chunks : list Chunk.t) (s : State) (i : nat) :
  exists r s',
    for_await chunks new_round s = (Ok r, s') /\
    arr_get (toolCalls r) i =
    match fragments_at i (fragments chunks) with
    | [] => None
    | fs =>
        Some {| id := last_supplied (Delta.id <$> fs);
                function :=
                  {| name := last_supplied (Delta.name <$> fs);
                     arguments := joined (supplied (Delta.arguments <$> fs)) |} |}
    end.
Proof.
  rewrite for_await_spec. eexists _, _. split; [done|].
  cbn [toolCalls new_round].
  change (fold_left accumulate (fragments chunks) [])
    with (assemble (fragments chunks)).
  rewrite assemble_get.
  by destruct (fragments_at i (fragments chunks)).
Qed.

(** X22: when the stream of an iteration has been consumed, the loop
    breaks unless the finish reason left by the last chunk is ["tool_calls"]
    and at least one tool call has been accumulated: it then returns at
    once, having issued this one request and yielded the text deltas of the
    stream and nothing else.  Otherwise it enters the tool round, and if the
    tool round returns, the next thing the loop does is a completion request
    over the conversation as the tool round has left it. *)
Theorem loop_continues_iff_tool_calls (fuel : nat) (tools : list OpenAITool.t)
        (s : State) (stream : Stream.t) (l : LLM) :
  create (llm s) (messages s) (offered tools) = (inl stream, l) ->
  Stream.failure stream = None ->
  let chunks := Stream.chunks stream in
  let continues :=
    terminal_finish_reason chunks = Some "tool_calls" /\
    exists i tc, arr_get (assemble (fragments chunks)) i = Some tc in
  (continues ->
   runStream_loop (S fuel) tools s =
   (tool_round (round_of chunks) ;; runStream_loop fuel tools)
     (streamed tools stream l s)) /\
  (continues ->
   forall s2,
     tool_round (round_of chunks) (streamed tools stream l s) = (Ok tt, s2) ->
     0 < fuel ->
     exists rest,
       events (snd (runStream_loop (S fuel) tools s))
       = events s2 ++ Requested (messages s2) (offered tools) :: rest) /\
  (~ continues ->
   runStream_loop (S fuel) tools s = (Ok tt, streamed tools stream l s)) /\
  (stops (round_of chunks) = false <-> continues).
Proof.
  intros Hcreate Hfail chunks continues.
  assert (Hiff : stops (round_of chunks) = false <-> continues)
    by apply round_continues.
  rewrite (runStream_loop_round fuel tools s stream l Hcreate Hfail).
  fold chunks. split; [|split; [|split; [|done]]].
  - intros Hc. apply Hiff in Hc. by rewrite Hc.
  - intros Hc s2 Hround Hfuel. apply Hiff in Hc. rewrite Hc.
    unfold bind. rewrite Hround.
    destruct (runStream_loop_advertised fuel tools s2) as (new & Hnew & _ & Hhead).
    specialize (Hhead Hfuel). rewrite Hnew.
    destruct new as [|e rest]; [done|].
    injection Hhead as ->. by exists rest.
  - intros Hn. destruct (stops (round_of chunks)) eqn:Hstops; [done|].
    by destruct Hn; apply Hiff.
Qed.

Lemma execute_unparsable (tc : ToolCall) (e : Thrown) (s : State) :
  JSON_parse (arguments (function tc)) = inr e ->
  execute (Some tc) s
  = (Ok tt,
     set_messages
       (messages s ++
        [ToolMessage (id tc) (JSON_stringify (error_object (error_message e)))])
       s).
Proof.
  intros Hparse. unfold execute, try_catch, bind, deref, parse, ret, throw.
  by rewrite Hparse.
Qed.

(** X20: a request whose accumulated argument string [JSON.parse] rejects
    is answered on the spot: the body of the loop over the calls returns
    normally in the state it started in, but for one more message at the end
    of the conversation, the tool-result message with the identifier of the
    request and, as content, [JSON.stringify] of the object whose one key
    [error] holds the message of the error (["Unknown error"] if what was
    thrown is no [Error]).  The provider is not reached and no invocation is
    logged, and the loop goes on with the calls after it from that state. *)
Theorem unparsable_arguments_get_error_reply (tc : ToolCall) (e : Thrown)
        (after : list (option ToolCall)) (s : State) :
  JSON_parse (arguments (function tc)) = inr e ->
  let reply :=
    ToolMessage (id tc)
      (JSON_stringify
         (JObj [("error",
                 JStr (match e with
                       | JsError message => message
                       | JsOther => "Unknown error"
                       end))])) in
  let s' :=
    {| llm := llm s; provider := provider s; mcpClient := mcpClient s;
       initialized := initialized s; messages := messages s ++ [reply];
       output := output s; events := events s |} in
  execute (Some tc) s = (Ok tt, s') /\
  for_of (Some tc :: after) execute s = for_of after execute s'.
Proof.
  intros Hparse reply s'.
  pose proof (execute_unparsable tc e s Hparse) as Hex.
  split; [exact Hex|].
  cbn [for_of]. unfold bind. by rewrite Hex.
Qed.

(** C8: [callTool] throws to its caller when the client is not connected
    (the error ["MCP client not connected"], before the provider is reached)
    and when the provider's call fails (that failure); the body of the loop
    over the calls catches what it throws, appends the tool-result message
    that carries the serialized [{error: message}] object, and goes on with
    the calls after it. *)
Theorem callTool_failure_is_answered (tc : ToolCall) (args : Json)
        (after : list (option ToolCall)) (s : State) :
  JSON_parse (arguments (function tc)) = inl args ->
  Client.client (mcpClient s) = false \/
  Client.isConnected (mcpClient s) = false \/
  (exists e, fst (sdk_callTool (provider s) (name (function tc)) args) = inr e) ->
  exists e s1,
    callTool (name (function tc)) args s = (Throw e, s1) /\
    (Client.client (mcpClient s) = false \/
     Client.isConnected (mcpClient s) = false ->
     e = JsError "MCP client not connected" /\ s1 = s) /\
    let reply :=
      ToolMessage (id tc) (JSON_stringify (error_object (error_message e))) in
    execute (Some tc) s = (Ok tt, set_messages (messages s1 ++ [reply]) s1) /\
    for_of (Some tc :: after) execute s =
    for_of after execute (set_messages (messages s1 ++ [reply]) s1).
Proof.
  intros Hparse Hdown.
  assert (Hthrows : exists e s1,
             callTool (name (function tc)) args s = (Throw e, s1) /\
             (Client.client (mcpClient s) = false \/
              Client.isConnected (mcpClient s) = false ->
              e = JsError "MCP client not connected" /\ s1 = s)).
  { destruct (Client.client (mcpClient s)) eqn:Hc;
      [destruct (Client.isConnected (mcpClient s)) eqn:Hi|].
    - destruct Hdown as [? | [? | [e He]]]; [done | done |].
      rewrite callTool_connected by done. rewrite He.
      eexists _, _. split; [done|]. by intros [? | ?].
    - rewrite callTool_disconnected by auto. eauto.
    - rewrite callTool_disconnected by auto. eauto. }
  destruct Hthrows as (e & s1 & Hcall & Hmsg).
  exists e, s1. split; [done|]. split; [done|].
  assert (Hex : execute (Some tc) s =
                (Ok tt,
                 set_messages
                   (messages s1 ++
                    [ToolMessage (id tc)
                       (JSON_stringify (error_object (error_message e)))]) s1)).
  { unfold execute, try_catch, bind, deref, parse, ret, throw.
    by rewrite Hparse, Hcall. }
  split; [done|].
  cbn [for_of]. unfold bind. by rewrite Hex.
Qed.

(** ** Draining the generator *)

Lemma runStream_initialized (fuel : nat) (userMessage : string)
      (history : list Message) (s : State) :
  initialized s = true ->
  runStream fuel userMessage history s =
  runStream_loop fuel (to_OpenAITool <$> Client.tools (mcpClient s))
    (set_messages (conversation userMessage history) s).
Proof.
  intros Hinit. unfold runStream, initialize, getOpenAITools.
  unfold bind, gets, modify, ret. by rewrite Hinit.
Qed.

(** C4: [run] returns exactly the chunks that draining [runStream] on the
    same message yields, concatenated in the order of emission, and fails
    as [runStream] fails; in particular, when the completion does not end
    with the tool-calling signal, both modes end after that one completion
    and the text [run] returns is the text deltas [runStream] has yielded. *)
Theorem run_is_drained_runStream (fuel : nat) (userMessage : string) (s : State) :
  run fuel userMessage s =
  (match fst (runStream fuel userMessage [] (set_output [] s)) with
   | Ok _ =>
       Ok (joined (output (snd (runStream fuel userMessage [] (set_output [] s)))))
   | Throw e => Throw e
   | OutOfFuel => OutOfFuel
   end,
   set_output (output s) (snd (runStream fuel userMessage [] (set_output [] s))))
  /\
  (forall stream l,
      initialized s = true ->
      create (llm s) (conversation userMessage [])
        (offered (to_OpenAITool <$> Client.tools (mcpClient s))) = (inl stream, l) ->
      Stream.failure stream = None ->
      terminal_finish_reason (Stream.chunks stream) <> Some "tool_calls" ->
      0 < fuel ->
      fst (runStream fuel userMessage [] (set_output [] s)) = Ok tt /\
      output (snd (runStream fuel userMessage [] (set_output [] s)))
      = text_deltas (Stream.chunks stream) /\
      fst (run fuel userMessage s) = Ok (joined (text_deltas (Stream.chunks stream)))).
Proof.
  assert (Hrun : run fuel userMessage s =
    (match fst (runStream fuel userMessage [] (set_output [] s)) with
     | Ok _ =>
         Ok (joined (output (snd (runStream fuel userMessage [] (set_output [] s)))))
     | Throw e => Throw e
     | OutOfFuel => OutOfFuel
     end,
     set_output (output s) (snd (runStream fuel userMessage [] (set_output [] s))))).
  { unfold run, bind, drain, ret.
    destruct (runStream fuel userMessage [] (set_output [] s)) as [[[] | e |] s'];
      [|done..].
    cbn. by rewrite fold_left_append. }
  split; [done|].
  intros stream l Hinit Hcreate Hfail Hreason Hfuel.
  destruct fuel as [|fuel]; [lia|].
  assert (Hloop : runStream (S fuel) userMessage [] (set_output [] s) =
                  (Ok tt, streamed (to_OpenAITool <$> Client.tools (mcpClient s))
                            stream l
                            (set_messages (conversation userMessage [])
                               (set_output [] s)))).
  { rewrite runStream_initialized by done.
    apply (runStream_loop_returns fuel
             (to_OpenAITool <$> Client.tools (mcpClient s))
             (set_messages (conversation userMessage []) (set_output [] s))
             stream l Hcreate Hfail).
    destruct (stops (round_of (Stream.chunks stream))) eqn:Hstops; [done|].
    apply round_continues in Hstops as [? _]. done. }
  rewrite Hrun, Hloop. done.
Qed.

(** C5, as amended: in a turn started with an empty tool catalog every
    completion request advertises no tools ([tools] is [undefined]); and
    when the first stream that comes back does not both end with the
    tool-calling signal and carry a tool-call fragment, the turn ends there:
    that one request is all the agent has done, the provider has not been
    reached, and the text deltas of the stream are all it has yielded (no
    marker). *)
Theorem empty_catalog_turn (fuel : nat) (userMessage : string)
        (history : list Message) (s : State) :
  initialized s = true ->
  Client.tools (mcpClient s) = [] ->
  (exists new,
      events (snd (runStream fuel userMessage history s)) = events s ++ new /\
      Forall (fun advert => advert = None) (advertised new)) /\
  (forall stream l,
      create (llm s) (conversation userMessage history) None = (inl stream, l) ->
      Stream.failure stream = None ->
      terminal_finish_reason (Stream.chunks stream) <> Some "tool_calls" \/
      fragments (Stream.chunks stream) = [] ->
      exists s',
        runStream (S fuel) userMessage history s = (Ok tt, s') /\
        events s' = events s ++ [Requested (conversation userMessage history) None] /\
        output s' = output s ++ text_deltas (Stream.chunks stream) /\
        provider s' = provider s).
Proof.
  intros Hinit Htools. split.
  - rewrite runStream_initialized by done. rewrite Htools, fmap_nil.
    destruct (runStream_loop_advertised fuel []
                (set_messages (conversation userMessage history) s))
      as (new & Hnew & Hadv & _).
    by exists new.
  - intros stream l Hcreate Hfail Hquiet.
    rewrite runStream_initialized by done. rewrite Htools, fmap_nil.
    rewrite (runStream_loop_returns fuel []
               (set_messages (conversation userMessage history) s)
               stream l Hcreate Hfail).
    + eexists. split; [done|]. done.
    + destruct (stops (round_of (Stream.chunks stream))) eqn:Hstops; [done|].
      apply round_continues in Hstops as [Hreason (i & tc & Hget)].
      destruct Hquiet as [Hne | Hnil]; [done|].
      rewrite Hnil in Hget. done.
Qed.

(** C6, as amended: [connect] on a connected client does nothing.  On a
    client that is not connected it assigns the transport and the client
    objects and then: if the handshake fails it throws that failure and
    the client stays not connected; if the handshake succeeds the client
    is marked connected at once, so that a failure to retrieve the catalog
    is thrown with the client left connected and its cached tool list as
    it was; and if both succeed the client is connected with the retrieved
    catalog cached. *)
Theorem connect_outcomes (s : State) :
  let c := mcpClient s in
  let attached (connected : bool) (tools : list MCPTool.t) (p : Provider) :=
    set_provider p
      (set_mcpClient
         {| Client.client := true; Client.transport := true;
            Client.tools := tools; Client.isConnected := connected |} s) in
  connect s =
  if Client.isConnected c then (Ok tt, s)
  else
    match sdk_connect (provider s) with
    | (inr e, p) => (Throw e, attached false (Client.tools c) p)
    | (inl _, p) =>
        match sdk_listTools p with
        | (inr e, p') => (Throw e, attached true (Client.tools c) p')
        | (inl toolsResponse, p') =>
            (Ok tt, attached true (to_MCPTool <$> toolsResponse) p')
        end
    end.
Proof.
  cbv zeta. unfold connect, update_client, provider_call.
  unfold bind, gets, modify, ret.
  destruct (Client.isConnected (mcpClient s)) eqn:Hc; [done|].
  cbn. destruct (sdk_connect (provider s)) as [[[] | e] p]; cbn.
  - destruct (sdk_listTools p) as [[toolsResponse | e] p']; done.
  - unfold with_client, with_transport. cbn. by rewrite Hc.
Qed.

(** C7, as amended: when closing the transport does not fail (or there
    is none to close), [disconnect] returns with the client and transport
    cleared and the client not connected, and leaves the cached tool list
    as it was; a second [disconnect] then changes nothing and does not
    reach the provider.  [getTools] returns the cached list whatever the
    connection state: the empty list on a new client, and after a
    [disconnect] the list the last successful [connect] has cached. *)
Theorem disconnect_keeps_tools (s : State) :
  (Client.transport (mcpClient s) = true -> fst (sdk_close (provider s)) = inl tt) ->
  exists s',
    disconnect s = (Ok tt, s') /\
    mcpClient s' =
    {| Client.client := false; Client.transport := false;
       Client.tools := Client.tools (mcpClient s);
       Client.isConnected := false |} /\
    disconnect s' = (Ok tt, s') /\
    getTools s' = (Ok (Client.tools (mcpClient s)), s') /\
    (forall s0, mcpClient s0 = Client.fresh -> getTools s0 = (Ok [], s0)).
Proof.
  intros Hclose.
  assert (Hfresh : forall s0, mcpClient s0 = Client.fresh -> getTools s0 = (Ok [], s0)).
  { intros s0 H0. unfold getTools, gets. by rewrite H0. }
  unfold disconnect, bind, gets, update_client, modify, provider_call, ret, getTools.
  destruct (Client.transport (mcpClient s)) eqn:Ht.
  - specialize (Hclose eq_refl).
    destruct (sdk_close (provider s)) as [[[] | e] p]; [|done].
    cbn. eexists. split; [done|]. cbn. split; [done|].
    split; [by destruct s | done].
  - cbn. eexists. split; [done|]. cbn. split; [done|].
    split; [by destruct s | done].
Qed.

(** ** Holes in the accumulated array *)

Lemma arr_get_cons_S {A} (x : option A) (l : list (option A)) (i : nat) :
  arr_get (x :: l) (S i) = arr_get l i.
Proof. done. Qed.

Lemma first_hole {A} (l : list (option A)) (i : nat) :
  i < length l -> arr_get l i = None ->
  exists before after,
    l = (Some <$> before) ++ None :: after /\ length before <= i.
Proof.
  revert i. induction l as [|x l IH]; intros i Hlen Hget; [simpl in Hlen; lia|].
  destruct x as [v|].
  - destruct i as [|i]; [done|].
    rewrite arr_get_cons_S in Hget. simpl in Hlen.
    destruct (IH i) as (before & after & -> & Hle); [lia | done |].
    exists (v :: before), after. split; [done | simpl; lia].
  - exists [], l. split; [done | simpl; lia].
Qed.

Lemma dense_fmap_Some {A} (l : list (option A)) :
  dense l <-> exists entries, l = Some <$> entries.
Proof.
  split.
  - induction l as [|x l IH]; intros Hd; [by exists []|].
    destruct (Hd 0) as [v Hv]; [simpl; lia|].
    destruct x as [x|]; [|done].
    destruct IH as [entries ->].
    + intros i Hi. apply (Hd (S i)). simpl. lia.
    + by exists (x :: entries).
  - intros [entries ->] i Hi. unfold arr_get.
    rewrite length_fmap in Hi.
    destruct (lookup_lt_is_Some_2 entries i Hi) as [v Hv].
    rewrite list_lookup_fmap, Hv. by eexists.
Qed.

Lemma span_elem (frs : list Delta.t) (d : Delta.t) :
  d ∈ frs -> Delta.index d < span frs.
Proof.
  induction 1 as [d frs | d d' frs Hin IH]; simpl; lia.
Qed.

(** The tool round on an array without holes: every request is answered
    once, in order, and nothing but tool invocations happens meanwhile. *)
Lemma tool_round_dense (r : Round) (tcs : list ToolCall) (s : State) :
  toolCalls r = Some <$> tcs ->
  exists results s',
    tool_round r s = (Ok tt, s') /\
    messages s' = messages s ++ assistant_message r :: results /\
    Forall2 answers tcs results /\
    output s' = output s ++ [tool_round_marker] /\
    exists invocations,
      events s' = events s ++ invocations /\ Forall is_invocation invocations.
Proof.
  intros Hcalls. unfold tool_round, bind, yield, push, modify. rewrite Hcalls.
  match goal with
  | |- context [for_of _ execute ?s0] =>
      destruct (for_of_execute_dense tcs s0)
        as (results & s' & Hfor & Hm & Hans & _ & _ & _ & Hout & Hev)
  end.
  exists results, s'. rewrite Hfor. split; [done|].
  split; [by rewrite Hm; cbn; rewrite <- app_assoc|].
  split; [done|]. split; [by rewrite Hout|]. done.
Qed.

(** X17: when the stream of an iteration asks for tools and its fragments
    leave no hole in the array, the iteration answers every accumulated
    request with exactly one tool-result message that carries the request's
    identifier, in the order of the array and right after the assistant
    message, does nothing but invoke tools meanwhile, and only then goes on
    to the next iteration and its completion request. *)
Lemma dense_round_answers_all (fuel : nat) (tools : list OpenAITool.t)
      (s : State) (stream : Stream.t) (l : LLM) :
  create (llm s) (messages s) (offered tools) = (inl stream, l) ->
  Stream.failure stream = None ->
  stops (round_of (Stream.chunks stream)) = false ->
  dense (assemble (fragments (Stream.chunks stream))) ->
  exists tcs results s',
    assemble (fragments (Stream.chunks stream)) = Some <$> tcs /\
    runStream_loop (S fuel) tools s = runStream_loop fuel tools s' /\
    messages s' =
    messages s ++ assistant_message (round_of (Stream.chunks stream)) :: results /\
    Forall2 answers tcs results /\
    output s' = output s ++ text_deltas (Stream.chunks stream) ++ [tool_round_marker] /\
    exists invocations,
      events s' = events s ++ Requested (messages s) (offered tools) :: invocations /\
      Forall is_invocation invocations.
Proof.
  intros Hcreate Hfail Hstops [tcs Hcalls]%dense_fmap_Some.
  rewrite (runStream_loop_round fuel tools s stream l Hcreate Hfail), Hstops.
  destruct (tool_round_dense (round_of (Stream.chunks stream)) tcs
              (streamed tools stream l s) Hcalls)
    as (results & s' & Hround & Hm & Hans & Hout & inv & Hev & Hinv).
  exists tcs, results, s'. unfold bind. rewrite Hround.
  split; [done|]. split; [done|]. split; [done|]. split; [done|].
  split; [by rewrite Hout; cbn; rewrite <- app_assoc|].
  exists inv. split; [|done]. rewrite Hev. cbn. by rewrite <- app_assoc.
Qed.

(** C10: when the stream of an iteration ends with the tool-calling signal
    and its fragments name a position but leave a lower position [i]
    without any fragment, the accumulated array has a hole, and the turn
    aborts: the loop over the array throws the [TypeError] of reading a
    property of [undefined] out of its own error handler.  Only requests
    before the first hole (fewer than [i + 1] of them) have been answered;
    the request at the named position is in the array and gets no
    tool-result message, and no further completion request is issued. *)
Theorem sparse_positions_abort_turn (fuel : nat) (tools : list OpenAITool.t)
        (s : State) (stream : Stream.t) (l : LLM) (i : nat) (d : Delta.t) :
  create (llm s) (messages s) (offered tools) = (inl stream, l) ->
  Stream.failure stream = None ->
  terminal_finish_reason (Stream.chunks stream) = Some "tool_calls" ->
  d ∈ fragments (Stream.chunks stream) ->
  i < Delta.index d ->
  fragments_at i (fragments (Stream.chunks stream)) = [] ->
  exists answered results s',
    runStream_loop (S fuel) tools s = (Throw undefined_read, s') /\
    length answered <= i /\
    take (length answered) (assemble (fragments (Stream.chunks stream)))
    = Some <$> answered /\
    arr_get (assemble (fragments (Stream.chunks stream))) (length answered) = None /\
    is_Some (arr_get (assemble (fragments (Stream.chunks stream))) (Delta.index d)) /\
    messages s' =
    messages s ++ assistant_message (round_of (Stream.chunks stream)) :: results /\
    Forall2 answers answered results /\
    exists invocations,
      events s' = events s ++ Requested (messages s) (offered tools) :: invocations /\
      Forall is_invocation invocations.
Proof.
  intros Hcreate Hfail Hreason Hd Hlt Hnone.
  set (chunks := Stream.chunks stream) in *.
  pose proof (span_elem _ _ Hd) as Hspan.
  assert (Hstops : stops (round_of chunks) = false).
  { apply stops_false. split; [done|].
    cbn [toolCalls round_of]. rewrite length_assemble. lia. }
  assert (Hhole : arr_get (assemble (fragments chunks)) i = None)
    by (by rewrite assemble_get, Hnone).
  destruct (first_hole (assemble (fragments chunks)) i) as
    (answered & after & Hsplit & Hle); [rewrite length_assemble; lia | done |].
  rewrite (runStream_loop_round fuel tools s stream l Hcreate Hfail).
  fold chunks. rewrite Hstops.
  unfold bind at 1. unfold tool_round, bind, yield, push, modify.
  cbn [toolCalls round_of]. rewrite Hsplit, for_of_execute_hole.
  match goal with
  | |- context [for_of _ execute ?s0] =>
      destruct (for_of_execute_dense answered s0)
        as (results & s' & Hfor & Hm & Hans & _ & _ & _ & _ & inv & Hev & Hinv)
  end.
  rewrite Hfor. exists answered, results, s'. cbn [snd].
  split; [done|]. split; [done|].
  split; [by rewrite take_app_length'; [|by rewrite length_fmap]|].
  split.
  { unfold arr_get. rewrite lookup_app_r by (by rewrite length_fmap).
    by rewrite length_fmap, Nat.sub_diag. }
  split.
  { rewrite <- Hsplit, assemble_get.
    pose proof (fragments_at_elem _ _ Hd) as Hne.
    destruct (fragments_at (Delta.index d) (fragments chunks)); [done | by eexists]. }
  split; [by rewrite Hm; cbn; rewrite <- app_assoc|].
  split; [done|].
  exists inv. split; [|done]. rewrite Hev. cbn. by rewrite <- app_assoc.
Qed.

(** ** What a turn leaves alone *)

Lemma supplied_nonempty (fields : list (option string)) :
  Forall (fun chunk => chunk <> "") (supplied fields).
Proof.
  induction fields as [|o fields IH]; [constructor|].
  rewrite supplied_cons. destruct (truthy o) eqn:Ho; [|done].
  constructor; [|done].
  destruct o as [text|]; [|done]. cbn in Ho |- *.
  intros ->. done.
Qed.

Lemma for_of_execute_work (calls : list (option ToolCall)) (s : State) :
  tool_work s (snd (for_of calls execute s)).
Proof.
  revert s. induction calls as [|[tc|] calls IH]; intros s.
  - apply tool_work_refl.
  - destruct (execute_some tc s) as (content & s1 & Hex & Hm & Hw).
    cbn [for_of]. unfold bind. rewrite Hex.
    by eapply tool_work_trans.
  - cbn [for_of]. unfold bind. rewrite execute_hole. apply tool_work_refl.
Qed.

(** The tool round yields the marker and nothing else, however it ends. *)
Lemma tool_round_frame (r : Round) (s : State) :
  mcpClient (snd (tool_round r s)) = mcpClient s /\
  initialized (snd (tool_round r s)) = initialized s /\
  output (snd (tool_round r s)) = output s ++ [tool_round_marker].
Proof.
  unfold tool_round, bind, yield, push, modify.
  match goal with
  | |- context [for_of ?calls execute ?s0] =>
      destruct (for_of_execute_work calls s0) as (_ & Hc & Hi & Ho & _)
  end.
  by rewrite Hc, Hi, Ho.
Qed.

Lemma tool_round_marker_nonempty : tool_round_marker <> "".
Proof. done. Qed.

Lemma runStream_loop_request_fails (fuel : nat) (tools : list OpenAITool.t)
      (s : State) (e : Thrown) (l : LLM) :
  create (llm s) (messages s) (offered tools) = (inr e, l) ->
  runStream_loop (S fuel) tools s =
  (Throw e,
   set_llm l (set_events (events s ++ [Requested (messages s) (offered tools)]) s)).
Proof.
  intros Hcreate. cbn [runStream_loop]. unfold bind at 1. unfold request.
  by rewrite Hcreate.
Qed.

Lemma runStream_loop_stream_fails (fuel : nat) (tools : list OpenAITool.t)
      (s : State) (stream : Stream.t) (e : Thrown) (l : LLM) :
  create (llm s) (messages s) (offered tools) = (inl stream, l) ->
  Stream.failure stream = Some e ->
  runStream_loop (S fuel) tools s = (Throw e, streamed tools stream l s).
Proof.
  intros Hcreate Hfail. cbn [runStream_loop]. unfold bind at 1. unfold request.
  rewrite Hcreate. unfold bind at 1. by rewrite consume_spec, Hfail.
Qed.

(** The loop leaves the client and the flag of the agent as they are, and
    only adds to the output. *)
Lemma runStream_loop_frame (fuel : nat) (tools : list OpenAITool.t) (s : State) :
  mcpClient (snd (runStream_loop fuel tools s)) = mcpClient s /\
  initialized (snd (runStream_loop fuel tools s)) = initialized s /\
  exists new,
    output (snd (runStream_loop fuel tools s)) = output s ++ new /\
    Forall (fun chunk => chunk <> "") new.
Proof.
  revert s. induction fuel as [|fuel IH]; intros s.
  - split; [done|]. split; [done|]. exists []. by rewrite app_nil_r.
  - destruct (create (llm s) (messages s) (offered tools))
      as [[stream | e] l] eqn:Hcreate.
    2: { rewrite (runStream_loop_request_fails fuel tools s e l Hcreate).
         split; [done|]. split; [done|]. exists []. cbn. by rewrite app_nil_r. }
    pose proof (supplied_nonempty (Chunk.content <$> Stream.chunks stream)) as Hdeltas.
    fold (text_deltas (Stream.chunks stream)) in Hdeltas.
    destruct (Stream.failure stream) as [e|] eqn:Hfail.
    { rewrite (runStream_loop_stream_fails fuel tools s stream e l Hcreate Hfail).
      split; [done|]. split; [done|]. by eexists. }
    rewrite (runStream_loop_round fuel tools s stream l Hcreate Hfail).
    destruct (stops (round_of (Stream.chunks stream))).
    { split; [done|]. split; [done|]. by eexists. }
    unfold bind.
    destruct (tool_round_frame (round_of (Stream.chunks stream))
                (streamed tools stream l s)) as (Hc & Hi & Ho).
    destruct (tool_round (round_of (Stream.chunks stream))
                (streamed tools stream l s)) as [[[] | e |] s1];
      cbn [snd] in Hc, Hi, Ho; cbn in Hc, Hi, Ho.
    + destruct (IH s1) as (Hc' & Hi' & new & Ho' & Hnew).
      split; [congruence|]. split; [congruence|].
      exists (text_deltas (Stream.chunks stream) ++ tool_round_marker :: new).
      split.
      * rewrite Ho'. rewrite Ho. by rewrite <- !app_assoc.
      * apply Forall_app. split; [done|].
        constructor; [apply tool_round_marker_nonempty | done].
    + cbn [snd]. split; [done|]. split; [done|].
      exists (text_deltas (Stream.chunks stream) ++ [tool_round_marker]).
      split; [by rewrite Ho, <- app_assoc|].
      apply Forall_app. split; [done|].
      constructor; [apply tool_round_marker_nonempty | done].
    + cbn [snd]. split; [done|]. split; [done|].
      exists (text_deltas (Stream.chunks stream) ++ [tool_round_marker]).
      split; [by rewrite Ho, <- app_assoc|].
      apply Forall_app. split; [done|].
      constructor; [apply tool_round_marker_nonempty | done].
Qed.

(** [initialize] and the client's methods do not look at the output. *)
Lemma initialize_output (chunks : list string) (s : State) :
  initialize (set_output chunks s)
  = (fst (initialize s), set_output chunks (snd (initialize s))).
Proof.
  unfold initialize, connect, update_client, provider_call.
  unfold bind, gets, modify, ret.
  destruct s as [l p c [] m o ev]; [reflexivity|]. cbn.
  destruct (Client.isConnected c); [reflexivity|]. cbn.
  destruct (sdk_connect p) as [[[] | e] p1]; [|reflexivity]. cbn.
  destruct (sdk_listTools p1) as [[toolsResponse | e] p2]; reflexivity.
Qed.

Lemma initialize_frame (s : State) :
  output (snd (initialize s)) = output s /\
  events (snd (initialize s)) = events s /\
  messages (snd (initialize s)) = messages s /\
  llm (snd (initialize s)) = llm s.
Proof.
  unfold initialize, connect, update_client, provider_call.
  unfold bind, gets, modify, ret.
  destruct s as [l p c [] m o ev]; [done|]. cbn.
  destruct (Client.isConnected c); [done|]. cbn.
  destruct (sdk_connect p) as [[[] | e] p1]; [|done]. cbn.
  destruct (sdk_listTools p1) as [[toolsResponse | e] p2]; done.
Qed.

(** [runStream] is [initialize] and then, if that returns, the loop. *)
Lemma runStream_unfold (fuel : nat) (userMessage : string)
      (history : list Message) (s : State) :
  runStream fuel userMessage history s =
  match initialize s with
  | (Ok _, s1) =>
      runStream_loop fuel (to_OpenAITool <$> Client.tools (mcpClient s1))
        (set_messages (conversation userMessage history) s1)
  | (Throw e, s1) => (Throw e, s1)
  | (OutOfFuel, s1) => (OutOfFuel, s1)
  end.
Proof.
  unfold runStream, getOpenAITools. unfold bind at 1.
  destruct (initialize s) as [[[] | e |] s1]; done.
Qed.

(** X1: [runStream] never yields an empty chunk: whatever the services do
    and however the turn ends, the chunks it has yielded are non-empty text
    deltas and tool-round markers. *)
Theorem runStream_yields_nonempty_chunks (fuel : nat) (userMessage : string)
        (history : list Message) (s : State) :
  exists new,
    output (snd (runStream fuel userMessage history s)) = output s ++ new /\
    Forall (fun chunk => chunk <> "") new.
Proof.
  rewrite runStream_unfold.
  destruct (initialize_frame s) as (Ho & _).
  destruct (initialize s) as [[[] | e |] s1]; cbn [snd] in Ho.
  - destruct (runStream_loop_frame fuel
                (to_OpenAITool <$> Client.tools (mcpClient s1))
                (set_messages (conversation userMessage history) s1))
      as (_ & _ & new & Hout & Hnew).
    exists new. rewrite Hout. cbn. by rewrite Ho.
  - exists []. cbn [snd]. by rewrite Ho, app_nil_r.
  - exists []. cbn [snd]. by rewrite Ho, app_nil_r.
Qed.

(** ** The order of the invocations *)

Lemma invocations_app (es1 es2 : list Event) :
  invocations (es1 ++ es2) = invocations es1 ++ invocations es2.
Proof. apply omap_app. Qed.

Lemma execute_connected (tc : ToolCall) (s : State) :
  Client.client (mcpClient s) = true ->
  Client.isConnected (mcpClient s) = true ->
  events (snd (execute (Some tc) s))
  = events s ++ match invocation_of tc with
                | Some (name, args) => [Invoked name args]
                | None => []
                end /\
  mcpClient (snd (execute (Some tc) s)) = mcpClient s.
Proof.
  intros Hc Hi.
  unfold execute, try_catch, bind, deref, parse, ret, throw, invocation_of.
  destruct (JSON_parse (arguments (function tc))) as [args | e].
  - rewrite callTool_connected by done.
    destruct (sdk_callTool (provider s) (name (function tc)) args)
      as [[result | e] p]; done.
  - cbn. by rewrite app_nil_r.
Qed.

Lemma for_of_execute_invocations (tcs : list ToolCall) (s : State) :
  Client.client (mcpClient s) = true ->
  Client.isConnected (mcpClient s) = true ->
  invocations (events (snd (for_of (Some <$> tcs) execute s)))
  = invocations (events s) ++ omap invocation_of tcs.
Proof.
  revert s. induction tcs as [|tc tcs IH]; intros s Hc Hi.
  - cbn. by rewrite app_nil_r.
  - destruct (execute_connected tc s Hc Hi) as [Hev Hclient].
    destruct (execute_some tc s) as (content & s1 & Hex & _).
    rewrite Hex in Hev, Hclient. cbn [snd] in Hev, Hclient.
    rewrite fmap_cons. cbn [for_of]. unfold bind. rewrite Hex.
    rewrite IH by (by rewrite Hclient).
    rewrite Hev, invocations_app, <- app_assoc. f_equal.
    cbn [omap list_omap]. destruct (invocation_of tc) as [[name args]|]; done.
Qed.

(** X2: in a tool round over an array without holes, with the client
    connected, the provider is invoked for exactly those requests whose
    argument string is JSON, one after the other in the order of the array,
    each under the accumulated function name and with the parsed arguments;
    a request that throws does not keep a later one from being invoked. *)
Theorem tool_round_invokes_in_order (r : Round) (tcs : list ToolCall) (s : State) :
  toolCalls r = Some <$> tcs ->
  Client.client (mcpClient s) = true ->
  Client.isConnected (mcpClient s) = true ->
  invocations (events (snd (tool_round r s)))
  = invocations (events s) ++ omap invocation_of tcs.
Proof.
  intros Hcalls Hc Hi. unfold tool_round, bind, yield, push, modify.
  rewrite Hcalls.
  match goal with
  | |- context [for_of _ execute ?s0] =>
      pose proof (for_of_execute_invocations tcs s0 Hc Hi) as Hinv;
      destruct (for_of (Some <$> tcs) execute s0) as [[[] | e |] s1]
  end; exact Hinv.
Qed.

(** ** The agent and its client *)

Lemma agent_ok_frame (s s' : State) :
  mcpClient s' = mcpClient s -> initialized s' = initialized s ->
  agent_ok s -> agent_ok s'.
Proof. unfold agent_ok. intros -> ->. done. Qed.

Lemma initialize_keeps_agent_ok (s : State) :
  agent_ok s -> agent_ok (snd (initialize s)).
Proof.
  unfold agent_ok, initialize, connect, update_client, provider_call.
  unfold bind, gets, modify, ret.
  destruct s as [l p c [] m o ev]; [done|]. cbn.
  intros [_ Hclient].
  destruct (Client.isConnected c) eqn:Hc; [cbn; by rewrite Hc|]. cbn.
  destruct (sdk_connect p) as [[[] | e] p1]; [|cbn; by rewrite Hc]. cbn.
  destruct (sdk_listTools p1) as [[toolsResponse | e] p2]; done.
Qed.

Lemma agent_disconnect_keeps_agent_ok (s : State) :
  agent_ok s -> agent_ok (snd (agent_disconnect s)).
Proof.
  unfold agent_ok, agent_disconnect, disconnect, update_client, provider_call.
  unfold bind, gets, modify, ret.
  destruct s as [l p c i m o ev]. cbn.
  destruct (Client.transport c); cbn; [|done].
  destruct (sdk_close p) as [[[] | e] p1]; done.
Qed.

Lemma runStream_keeps_agent_ok (fuel : nat) (userMessage : string)
      (history : list Message) (s : State) :
  agent_ok s -> agent_ok (snd (runStream fuel userMessage history s)).
Proof.
  intros Hok%initialize_keeps_agent_ok. rewrite runStream_unfold.
  destruct (initialize s) as [[[] | e |] s1]; cbn [snd] in Hok; [|done..].
  destruct (runStream_loop_frame fuel
              (to_OpenAITool <$> Client.tools (mcpClient s1))
              (set_messages (conversation userMessage history) s1))
    as (Hc & Hi & _).
  by eapply agent_ok_frame.
Qed.

(** X3: the methods of the agent keep its client in step with its flag:
    if, before a call of [initialize], [runStream], [run] or [disconnect],
    an initialized agent has a connected client and a connected client has
    its SDK client object, the same holds after the call, however it ends. *)
Theorem agent_methods_keep_client_in_step (s : State) :
  agent_ok s ->
  agent_ok (snd (initialize s)) /\
  agent_ok (snd (agent_disconnect s)) /\
  (forall fuel userMessage history,
      agent_ok (snd (runStream fuel userMessage history s))) /\
  (forall fuel userMessage, agent_ok (snd (run fuel userMessage s))).
Proof.
  intros Hok.
  split; [by apply initialize_keeps_agent_ok|].
  split; [by apply agent_disconnect_keeps_agent_ok|].
  split; [intros; by apply runStream_keeps_agent_ok|].
  intros fuel userMessage. unfold run, bind, drain, ret.
  pose proof (runStream_keeps_agent_ok fuel userMessage [] (set_output [] s)) as Hrun.
  destruct (runStream fuel userMessage [] (set_output [] s)) as [[[] | e |] s1];
    cbn [snd] in *; apply Hrun; exact Hok.
Qed.

(** X4: when [initialize] returns, the agent is initialized and its client
    is connected and has its SDK client object, and a further [initialize]
    does nothing at all: the provider is not reached again. *)
Theorem initialize_once (s s1 : State) :
  agent_ok s ->
  initialize s = (Ok tt, s1) ->
  initialized s1 = true /\
  Client.isConnected (mcpClient s1) = true /\
  Client.client (mcpClient s1) = true /\
  initialize s1 = (Ok tt, s1).
Proof.
  unfold agent_ok, initialize, connect, update_client, provider_call.
  unfold bind, gets, modify, ret.
  destruct s as [l p c i m o ev]. cbn.
  intros [Hinit Hclient]. destruct i.
  - intros [= <-]. cbn. repeat split; auto.
  - cbn. destruct (Client.isConnected c) eqn:Hc.
    + intros [= <-]. cbn. rewrite Hc. repeat split; auto.
    + cbn. destruct (sdk_connect p) as [[[] | e] p1]; [|done]. cbn.
      destruct (sdk_listTools p1) as [[toolsResponse | e] p2]; [|done].
      intros [= <-]. cbn. repeat split; auto.
Qed.

(** X5: when the handshake succeeds and the retrieval of the catalog then
    fails, [initialize] throws that failure; the next [initialize] returns
    without reaching the provider and without a catalog: the agent is then
    initialized with the tool list it had before (none on a new agent). *)
Theorem initialize_after_failed_catalog (s : State) (e : Thrown) (p p' : Provider) :
  initialized s = false ->
  Client.isConnected (mcpClient s) = false ->
  sdk_connect (provider s) = (inl tt, p) ->
  sdk_listTools p = (inr e, p') ->
  exists s1,
    initialize s = (Throw e, s1) /\
    initialize s1 = (Ok tt, set_initialized true s1) /\
    provider s1 = p' /\
    Client.tools (mcpClient s1) = Client.tools (mcpClient s) /\
    fst (getOpenAITools (set_initialized true s1))
    = Ok (to_OpenAITool <$> Client.tools (mcpClient s)).
Proof.
  unfold initialize, connect, update_client, provider_call, getOpenAITools.
  unfold bind, gets, modify, ret.
  destruct s as [l p0 c i m o ev]. cbn.
  intros -> Hc Hconnect Hlist. cbn. rewrite Hc. cbn. rewrite Hconnect. cbn.
  rewrite Hlist. eexists. split; [done|]. cbn. done.
Qed.

(** ** The first request of a turn *)

Lemma runStream_first_request (fuel : nat) (userMessage : string)
      (history : list Message) (s s1 : State) :
  initialize s = (Ok tt, s1) ->
  exists rest,
    events (snd (runStream (S fuel) userMessage history s))
    = events s ++
      Requested (conversation userMessage history)
        (offered (to_OpenAITool <$> Client.tools (mcpClient s1))) :: rest.
Proof.
  intros Hinit. rewrite runStream_unfold.
  destruct (initialize_frame s) as (_ & Hev & _). rewrite Hinit in Hev |- *.
  cbn [snd] in Hev.
  destruct (runStream_loop_advertised (S fuel)
              (to_OpenAITool <$> Client.tools (mcpClient s1))
              (set_messages (conversation userMessage history) s1))
    as (new & Hnew & _ & Hhead).
  specialize (Hhead ltac:(lia)).
  destruct new as [|e rest]; [done|]. injection Hhead as ->.
  exists rest. rewrite Hnew. cbn. by rewrite Hev.
Qed.

(** X6: the first thing a turn on an agent that has yet to connect does,
    once the handshake and the retrieval of the catalog have succeeded, is a
    completion request over the system prompt, the history and the user
    message, in that order, which advertises the catalog of the provider
    tool for tool, in the provider's order, with names and schemas as they
    came and a missing description replaced by the empty string; it
    advertises nothing ([undefined]) when the catalog is empty. *)
Theorem first_request_advertises_catalog (fuel : nat) (userMessage : string)
        (history : list Message) (s : State) (catalog : list SdkTool.t)
        (p p' : Provider) :
  initialized s = false ->
  Client.isConnected (mcpClient s) = false ->
  sdk_connect (provider s) = (inl tt, p) ->
  sdk_listTools p = (inl catalog, p') ->
  exists rest,
    events (snd (runStream (S fuel) userMessage history s))
    = events s ++
      Requested
        ([SystemMessage systemPrompt] ++ history ++ [UserMessage userMessage])
        (match catalog with
         | [] => None
         | _ :: _ => Some (advertised_tool <$> catalog)
         end) :: rest.
Proof.
  intros Hinit Hc Hconnect Hlist.
  assert (Hstart : exists s1,
             initialize s = (Ok tt, s1) /\
             Client.tools (mcpClient s1) = to_MCPTool <$> catalog).
  { unfold initialize, connect, update_client, provider_call.
    unfold bind, gets, modify, ret.
    destruct s as [l p0 c i m o ev]. cbn in *. subst i. cbn. rewrite Hc. cbn.
    rewrite Hconnect. cbn. rewrite Hlist. by eexists. }
  destruct Hstart as (s1 & Hstart & Htools).
  destruct (runStream_first_request fuel userMessage history s s1 Hstart)
    as [rest Hev].
  exists rest. rewrite Hev, Htools. do 2 f_equal.
  rewrite <- list_fmap_compose. by destruct catalog.
Qed.

(** X7: [AzureMCPAgent.disconnect] closes the transport if there is one.
    When closing throws, the call throws the same and resets nothing: the
    client keeps its objects and its connection flag, and the agent stays
    initialized.  Otherwise the client's objects and flag are cleared, its
    cached tool list is kept, and the agent is no longer initialized. *)
Theorem agent_disconnect_outcomes (s : State) :
  let cleared :=
    {| Client.client := false; Client.transport := false;
       Client.tools := Client.tools (mcpClient s);
       Client.isConnected := false |} in
  agent_disconnect s =
  if Client.transport (mcpClient s)
  then
    match sdk_close (provider s) with
    | (inl _, p) =>
        (Ok tt, set_initialized false (set_mcpClient cleared (set_provider p s)))
    | (inr e, p) => (Throw e, set_provider p s)
    end
  else (Ok tt, set_initialized false (set_mcpClient cleared s)).
Proof.
  unfold agent_disconnect, disconnect, update_client, provider_call.
  unfold bind, gets, modify, ret.
  destruct s as [l p c i m o ev]. cbn.
  destruct (Client.transport c); [|done]. cbn.
  destruct (sdk_close p) as [[[] | e] p1]; done.
Qed.

(** X8: after a [disconnect] of the agent that has returned, the next
    [initialize] goes through the handshake again and, when that and the
    retrieval succeed, replaces the cached tool list by the catalog the
    provider reports then. *)
Theorem reconnect_refetches_catalog (s s1 : State) (catalog : list SdkTool.t)
        (p p' : Provider) :
  agent_disconnect s = (Ok tt, s1) ->
  sdk_connect (provider s1) = (inl tt, p) ->
  sdk_listTools p = (inl catalog, p') ->
  exists s2,
    initialize s1 = (Ok tt, s2) /\
    Client.tools (mcpClient s2) = to_MCPTool <$> catalog /\
    initialized s2 = true /\
    Client.isConnected (mcpClient s2) = true /\
    provider s2 = p'.
Proof.
  unfold agent_disconnect, disconnect, initialize, connect, update_client,
    provider_call.
  unfold bind, gets, modify, ret.
  destruct s as [l p0 c i m o ev]. cbn.
  destruct (Client.transport c); cbn.
  - destruct (sdk_close p0) as [[[] | e] p1]; [|done]. cbn.
    intros [= <-]. cbn. intros Hconnect Hlist. rewrite Hconnect. cbn.
    rewrite Hlist. by eexists.
  - intros [= <-]. cbn. intros Hconnect Hlist. rewrite Hconnect. cbn.
    rewrite Hlist. by eexists.
Qed.

(** ** Launching the provider *)

Lemma fold_namespace_flags (namespaces args : list string) :
  fold_left (fun args ns => args ++ ["--namespace"; ns]) namespaces args
  = args ++ namespace_flags namespaces.
Proof.
  revert args. induction namespaces as [|ns namespaces IH]; intros args.
  - by rewrite app_nil_r.
  - cbn [fold_left]. rewrite IH. unfold namespace_flags.
    rewrite bind_cons, <- app_assoc. done.
Qed.

Lemma length_namespace_flags (namespaces : list string) :
  length (namespace_flags namespaces) = 2 * length namespaces.
Proof.
  induction namespaces as [|ns namespaces IH]; [done|].
  unfold namespace_flags in *. rewrite bind_cons, length_app, IH. simpl. lia.
Qed.

Lemma namespace_flags_lookup (namespaces : list string) (k : nat) (ns : string) :
  namespaces !! k = Some ns ->
  namespace_flags namespaces !! (2 * k) = Some "--namespace" /\
  namespace_flags namespaces !! (2 * k + 1) = Some ns.
Proof.
  revert k. induction namespaces as [|ns' namespaces IH]; intros k Hk; [done|].
  unfold namespace_flags in *. rewrite bind_cons.
  destruct k as [|k].
  - injection Hk as ->. done.
  - cbn in Hk. destruct (IH k Hk) as [Hflag Hvalue].
    replace (2 * S k) with (S (S (2 * k))) by lia.
    replace (S (S (2 * k)) + 1) with (S (S (2 * k + 1))) by lia.
    done.
Qed.

Lemma connect_args_closed (config : ClientConfig.t) :
  connect_args config
  = ["-y"; "@azure/mcp@latest"; "server"; "start"]
    ++ namespace_flags (enabled_namespaces config)
    ++ (if default false (ClientConfig.readOnly config)
        then ["--read-only"] else []).
Proof.
  unfold connect_args. rewrite fold_namespace_flags.
  destruct (ClientConfig.readOnly config) as [[]|]; cbn [default];
    by rewrite <- ?app_assoc, ?app_nil_r.
Qed.

Lemma connect_args_tail (config : ClientConfig.t) :
  connect_args config !! (4 + 2 * length (enabled_namespaces config))
  = (if default false (ClientConfig.readOnly config)
     then Some "--read-only" else None) /\
  length (connect_args config)
  = 4 + 2 * length (enabled_namespaces config)
    + (if default false (ClientConfig.readOnly config) then 1 else 0).
Proof.
  rewrite connect_args_closed.
  pose proof (length_namespace_flags (enabled_namespaces config)) as Hlen.
  split.
  - change ((namespace_flags (enabled_namespaces config)
             ++ (if default false (ClientConfig.readOnly config)
                 then ["--read-only"] else []))
            !! (2 * length (enabled_namespaces config))
            = (if default false (ClientConfig.readOnly config)
               then Some "--read-only" else None)).
    rewrite lookup_app_r by lia. rewrite Hlen, Nat.sub_diag.
    by destruct (default false (ClientConfig.readOnly config)).
  - cbn [app length]. rewrite length_app, Hlen.
    destruct (default false (ClientConfig.readOnly config)); simpl; lia.
Qed.

(** X9: the arguments [connect] launches the provider with are the four
    fixed ones, then one ["--namespace"] flag followed by its name for each
    enabled namespace, in the order of the configuration, then
    ["--read-only"] if and only if the client is configured read-only, and
    nothing else.  The enabled namespaces are the configured ones, also when
    that list is empty, and the three default ones only when none is given. *)
Theorem connect_args_layout (config : ClientConfig.t) :
  let namespaces :=
    match ClientConfig.namespaces config with
    | Some namespaces => namespaces
    | None => ["storage"; "resources"; "resourcegraph"]
    end in
  let args := connect_args config in
  take 4 args = ["-y"; "@azure/mcp@latest"; "server"; "start"] /\
  (forall k ns,
      namespaces !! k = Some ns ->
      args !! (4 + 2 * k) = Some "--namespace" /\
      args !! (4 + 2 * k + 1) = Some ns) /\
  args !! (4 + 2 * length namespaces)
  = (if default false (ClientConfig.readOnly config)
     then Some "--read-only" else None) /\
  length args
  = 4 + 2 * length namespaces
    + (if default false (ClientConfig.readOnly config) then 1 else 0).
Proof.
  cbv zeta. fold (enabled_namespaces config).
  destruct (connect_args_tail config) as [Hflag Hlength].
  split; [by rewrite connect_args_closed|].
  split; [|done].
  intros k ns Hk. rewrite connect_args_closed.
  destruct (namespace_flags_lookup (enabled_namespaces config) k ns Hk)
    as [Hname Hvalue].
  pose proof (lookup_lt_Some _ _ _ Hk) as Hlt.
  pose proof (length_namespace_flags (enabled_namespaces config)) as Hlen.
  rewrite <- Nat.add_assoc.
  assert (Hbase : forall n (rest : list string),
             (["-y"; "@azure/mcp@latest"; "server"; "start"] ++ rest) !! (4 + n)
             = rest !! n) by done.
  rewrite !Hbase, !lookup_app_l by lia. done.
Qed.

(** X10: an agent launches its provider read-write only when it is
    configured with [readOnly: false]; with [readOnly] left out (or [true])
    the arguments end with ["--read-only"] after the namespaces.  A client
    constructed on its own without [readOnly] gets no such flag. *)
Theorem agent_is_read_only_by_default (config : AzureMCPConfig.t) :
  let namespaces :=
    match AzureMCPConfig.namespaces config with
    | Some namespaces => namespaces
    | None => ["storage"; "resources"; "resourcegraph"]
    end in
  connect_args (mcp_client_config config) !! (4 + 2 * length namespaces)
  = (match AzureMCPConfig.readOnly config with
     | Some false => None
     | _ => Some "--read-only"
     end) /\
  length (connect_args (mcp_client_config config))
  = 4 + 2 * length namespaces
    + (match AzureMCPConfig.readOnly config with
       | Some false => 0
       | _ => 1
       end) /\
  forall client : ClientConfig.t,
    ClientConfig.readOnly client = None ->
    length (connect_args client) = 4 + 2 * length (enabled_namespaces client).
Proof.
  cbv zeta.
  destruct (connect_args_tail (mcp_client_config config)) as [Hflag Hlen].
  unfold enabled_namespaces in Hflag, Hlen.
  cbn [mcp_client_config ClientConfig.namespaces ClientConfig.readOnly default]
    in Hflag, Hlen.
  split; [|split].
  - rewrite Hflag. by destruct (AzureMCPConfig.readOnly config) as [[]|].
  - rewrite Hlen. by destruct (AzureMCPConfig.readOnly config) as [[]|].
  - intros client Hnone.
    destruct (connect_args_tail client) as [_ Hclient].
    rewrite Hclient, Hnone. cbn [default]. lia.
Qed.

(** X11: the child process inherits the environment of the server, except
    that the four credentials of the configuration and [NODE_NO_WARNINGS]
    replace whatever the server's environment holds under these names. *)
Theorem transport_env_lookup (process_env : gmap string string)
        (config : ClientConfig.t) (key : string) :
  transport_env process_env config !! key =
  if decide (key = "AZURE_CLIENT_ID") then Some (ClientConfig.clientId config)
  else if decide (key = "AZURE_CLIENT_SECRET")
       then Some (ClientConfig.clientSecret config)
  else if decide (key = "AZURE_TENANT_ID") then Some (ClientConfig.tenantId config)
  else if decide (key = "AZURE_SUBSCRIPTION_ID")
       then Some (ClientConfig.subscriptionId config)
  else if decide (key = "NODE_NO_WARNINGS") then Some "1"
  else process_env !! key.
Proof.
  unfold transport_env. rewrite !lookup_insert.
  repeat case_decide; subst; done.
Qed.

(** ** Starting the server *)

Lemma truthy_is_set (process_env : gmap string string) (envVar : string) :
  truthy (process_env !! envVar) = true <-> is_set process_env envVar.
Proof.
  unfold is_set. destruct (process_env !! envVar) as [value|]; cbn.
  - rewrite negb_true_iff, String.eqb_neq. split.
    + intros Hne. by exists value.
    + by intros (? & [= <-] & Hne).
  - split; [done|]. by intros (? & ? & _).
Qed.

Lemma first_missing_None (vars : list string) (process_env : gmap string string) :
  first_missing vars process_env = None <-> Forall (is_set process_env) vars.
Proof.
  induction vars as [|envVar vars IH]; [by split; [constructor|]|].
  cbn [first_missing]. rewrite Forall_cons, <- truthy_is_set.
  destruct (truthy (process_env !! envVar)).
  - rewrite IH. split; [by intros | by intros [_ ?]].
  - split; [done|]. by intros [? _].
Qed.

Lemma first_missing_Some (vars : list string) (process_env : gmap string string)
      (envVar : string) :
  first_missing vars process_env = Some envVar ->
  exists before after,
    vars = before ++ envVar :: after /\
    Forall (is_set process_env) before /\
    ~ is_set process_env envVar.
Proof.
  induction vars as [|v vars IH]; [done|]. cbn [first_missing].
  destruct (truthy (process_env !! v)) eqn:Hv.
  - intros (before & after & -> & Hbefore & Hmissing)%IH.
    exists (v :: before), after. split; [done|].
    split; [|done]. constructor; [by apply truthy_is_set | done].
  - intros [= ->]. exists [], vars. split; [done|]. split; [done|].
    rewrite <- truthy_is_set. by rewrite Hv.
Qed.

(** X12: the server gets past the validation of its environment exactly
    when each of the seven required variables is set to a non-empty value;
    otherwise it exits at the first required variable, in the order of the
    list, that is unset or empty. *)
Theorem validate_env_spec (process_env : gmap string string) :
  (validate_env process_env = None <->
   forall envVar, envVar ∈ requiredEnvVars -> is_set process_env envVar) /\
  (forall envVar,
      validate_env process_env = Some envVar ->
      exists before after,
        requiredEnvVars = before ++ envVar :: after /\
        (forall earlier, earlier ∈ before -> is_set process_env earlier) /\
        (process_env !! envVar = None \/ process_env !! envVar = Some "")).
Proof.
  unfold validate_env. split.
  - by rewrite first_missing_None, Forall_forall.
  - intros envVar (before & after & Hsplit & Hbefore & Hmissing)%first_missing_Some.
    exists before, after. split; [done|]. split.
    + by apply Forall_forall.
    + unfold is_set in Hmissing.
      destruct (process_env !! envVar) as [value|]; [|by left].
      right. destruct (String.eqb_spec value ""); [by subst|].
      destruct Hmissing. by exists value.
Qed.

(** ** The handlers *)

Lemma acceptable_spec (message : option Json) :
  falsy message || not_a_string message = false <-> acceptable message.
Proof.
  unfold acceptable.
  destruct message as [[| b | n | text | items | fields]|]; cbn;
    try (rewrite ?orb_true_r; split; [done | by intros (? & ? & _)]).
  rewrite orb_false_r, String.eqb_neq. split.
  - intros Hne. by exists text.
  - by intros (? & [= <-] & Hne).
Qed.

Lemma set_output_restore (chunks : list string) (s s1 : State) :
  output s1 = output s -> set_output (output s) (set_output chunks s1) = s1.
Proof. destruct s1. cbn. by intros ->. Qed.

(** What the handlers do once [message] has been read from the body. *)
Lemma message_is_validated (fuel : nat) (message : option Json) (s : State) :
  (~ acceptable message ->
   chat fuel message s = (JsonReply 400 message_required, s) /\
   chat_sync fuel message s = (JsonReply 400 message_required, s)) /\
  (acceptable message ->
   forall body,
     fst (chat fuel message s) <> JsonReply 400 body /\
     fst (chat_sync fuel message s) <> JsonReply 400 body).
Proof.
  unfold chat, chat_sync. split.
  - intros Hbad. rewrite <- acceptable_spec in Hbad.
    by destruct (falsy message || not_a_string message).
  - intros Hgood%acceptable_spec body. rewrite Hgood. split.
    + destruct (collect (runStream fuel (string_of message) []) s)
        as [[[[] | e |] chunks] s1]; [done | | done].
      by destruct chunks.
    + by destruct (run fuel (string_of message) s) as [[response | e |] s1].
Qed.

(** X14: when the agent cannot initialize (the handshake with the provider
    or the retrieval of its catalog throws), both handlers answer with
    status 500 and a body that carries the message of the error under
    [details]; no completion is requested and nothing is streamed. *)
Theorem connection_failure_is_a_500 (fuel : nat) (message : option Json)
        (s s1 : State) (e : Thrown) :
  acceptable message ->
  initialize s = (Throw e, s1) ->
  chat fuel message s = (JsonReply 500 (internal_error e), s1) /\
  chat_sync fuel message s = (JsonReply 500 (internal_error e), s1) /\
  events s1 = events s.
Proof.
  intros Hgood%acceptable_spec Hinit.
  destruct (initialize_frame s) as (Hout & Hev & _).
  rewrite Hinit in Hout, Hev. cbn [snd] in Hout, Hev.
  assert (Hrun : runStream fuel (string_of message) [] (set_output [] s)
                 = (Throw e, set_output [] s1)).
  { rewrite runStream_unfold, initialize_output, Hinit. done. }
  unfold chat, chat_sync, collect, run, bind, drain. rewrite Hgood, Hrun.
  cbn. by rewrite set_output_restore.
Qed.

(** X15: when the streaming handler ends the response normally, the
    synchronous handler, run on the same agent with the same message,
    answers with status 200 and, under [response], the chunks of the
    streamed body concatenated in order; both leave the agent in the same
    state. *)
Theorem sync_reply_is_the_streamed_body (fuel : nat) (message : option Json)
        (s s' : State) (chunks : list string) :
  chat fuel message s = (Chunked chunks None, s') ->
  chat_sync fuel message s
  = (JsonReply 200 (JObj [("response", JStr (joined chunks))]), s').
Proof.
  unfold chat, chat_sync, collect, run, bind, drain, ret.
  destruct (falsy message || not_a_string message); [done|].
  destruct (runStream fuel (string_of message) [] (set_output [] s))
    as [[[] | e |] s1]; [| |done].
  - intros [= <- <-]. by rewrite fold_left_append.
  - by destruct (output s1).
Qed.

(** X16: once a turn has entered a tool round, the streaming handler never
    answers with a JSON error: whatever fails afterwards (a tool round that
    aborts, a later completion request that throws), the body already holds
    the text deltas of the first stream and the tool-round marker, and the
    failure only ends it with the error trailer. *)
Theorem failure_after_tool_round_is_in_band (fuel : nat) (message : option Json)
        (s : State) (stream : Stream.t) (l : LLM) :
  acceptable message ->
  initialized s = true ->
  create (llm s) (conversation (string_of message) [])
    (offered (to_OpenAITool <$> Client.tools (mcpClient s))) = (inl stream, l) ->
  Stream.failure stream = None ->
  terminal_finish_reason (Stream.chunks stream) = Some "tool_calls" ->
  fragments (Stream.chunks stream) <> [] ->
  match fst (chat (S fuel) message s) with
  | JsonReply _ _ => False
  | Chunked chunks _ | Pending chunks =>
      exists more,
        chunks = text_deltas (Stream.chunks stream) ++ tool_round_marker :: more
  end.
Proof.
  intros Hgood%acceptable_spec Hinit Hcreate Hfail Hreason Hfrags.
  assert (Hstops : stops (round_of (Stream.chunks stream)) = false).
  { apply stops_false. split; [done|]. cbn [toolCalls round_of].
    by rewrite length_assemble, span_zero. }
  set (tools := to_OpenAITool <$> Client.tools (mcpClient s)) in *.
  set (s0 := set_messages (conversation (string_of message) []) (set_output [] s)).
  assert (Hout : exists more,
             output (snd (runStream (S fuel) (string_of message) []
                            (set_output [] s)))
             = text_deltas (Stream.chunks stream) ++ tool_round_marker :: more).
  { rewrite runStream_initialized by done.
    change (to_OpenAITool <$> Client.tools (mcpClient (set_output [] s)))
      with tools. fold s0.
    rewrite (runStream_loop_round fuel tools s0 stream l Hcreate Hfail), Hstops.
    unfold bind.
    destruct (tool_round_frame (round_of (Stream.chunks stream))
                (streamed tools stream l s0)) as (_ & _ & Ho).
    destruct (tool_round (round_of (Stream.chunks stream))
                (streamed tools stream l s0)) as [[[] | e |] s1];
      cbn [snd] in Ho |- *.
    - destruct (runStream_loop_frame fuel tools s1) as (_ & _ & new & Hnew & _).
      exists new. rewrite Hnew, Ho. cbn. by rewrite <- app_assoc.
    - exists []. rewrite Ho. done.
    - exists []. rewrite Ho. done. }
  destruct Hout as [more Hout].
  unfold chat, collect. rewrite Hgood.
  destruct (runStream (S fuel) (string_of message) [] (set_output [] s))
    as [[[] | e |] s1]; cbn [fst snd] in Hout |- *.
  - by exists more.
  - rewrite Hout.
    destruct (text_deltas (Stream.chunks stream)) as [|delta deltas];
      by exists more.
  - by exists more.
Qed.

(** X18: the accumulated array has no hole exactly when every position
    below the highest position that some fragment names is named by a
    fragment itself. *)
Theorem assemble_dense_iff (frs : list Delta.t) :
  dense (assemble frs) <->
  forall i, i < span frs -> fragments_at i frs <> [].
Proof.
  unfold dense. rewrite length_assemble.
  split; intros Hall i Hi; specialize (Hall i Hi);
    rewrite assemble_get in *;
    destruct (fragments_at i frs); done.
Qed.

(** X19: when the first completion stream of a turn breaks off, the turn
    throws the stream's error at the end of what has arrived, without a tool
    round.  The streaming handler has then written the text deltas that
    arrived and ends the body with the error trailer (or answers with status
    500 if no text had arrived); the synchronous handler answers with status
    500 and the message of the error, and the text that arrived is lost. *)
Theorem broken_stream_replies (fuel : nat) (message : option Json) (s : State)
        (stream : Stream.t) (l : LLM) (e : Thrown) :
  acceptable message ->
  initialized s = true ->
  create (llm s) (conversation (string_of message) [])
    (offered (to_OpenAITool <$> Client.tools (mcpClient s))) = (inl stream, l) ->
  Stream.failure stream = Some e ->
  exists s',
    chat (S fuel) message s
    = (match text_deltas (Stream.chunks stream) with
       | [] => JsonReply 500 (internal_error e)
       | _ :: _ => Chunked (text_deltas (Stream.chunks stream)) (Some error_trailer)
       end, s') /\
    chat_sync (S fuel) message s = (JsonReply 500 (internal_error e), s') /\
    invocations (events s') = invocations (events s) /\
    length (advertised (events s')) = S (length (advertised (events s))).
Proof.
  intros Hgood%acceptable_spec Hinit Hcreate Hfail.
  set (tools := to_OpenAITool <$> Client.tools (mcpClient s)) in *.
  set (s0 := set_messages (conversation (string_of message) []) (set_output [] s)).
  assert (Hrun : runStream (S fuel) (string_of message) [] (set_output [] s)
                 = (Throw e, streamed tools stream l s0)).
  { rewrite runStream_initialized by done.
    apply (runStream_loop_stream_fails fuel tools s0 stream e l Hcreate Hfail). }
  exists (set_output (output s) (streamed tools stream l s0)).
  unfold chat, chat_sync, collect, run, bind, drain. rewrite Hgood, Hrun.
  cbn [output streamed set_output app]. split; [|split; [done|]].
  - by destruct (text_deltas (Stream.chunks stream)).
  - cbn. rewrite invocations_app, advertised_app, length_app. cbn.
    rewrite app_nil_r. split; [done | lia].
Qed.

(** ** A request that cannot be parsed, in a round without holes *)

(** X21: in an iteration whose stream asks for tools and leaves no hole
    in the array, a request whose argument string [JSON.parse] rejects gets,
    at its own place among the tool-result messages, the message with its
    identifier and [JSON.stringify] of [{error: message}] as content; the
    requests before and after it are each answered once, in order; and the
    loop then goes on to the next iteration, which opens with a completion
    request over the conversation that holds all these messages. *)
Theorem unparsable_request_in_dense_round (fuel : nat) (tools : list OpenAITool.t)
        (s : State) (stream : Stream.t) (l : LLM)
        (before after : list ToolCall) (tc : ToolCall) (e : Thrown) :
  create (llm s) (messages s) (offered tools) = (inl stream, l) ->
  Stream.failure stream = None ->
  terminal_finish_reason (Stream.chunks stream) = Some "tool_calls" ->
  assemble (fragments (Stream.chunks stream)) = Some <$> (before ++ tc :: after) ->
  JSON_parse (arguments (function tc)) = inr e ->
  exists replies_before replies_after s' rest,
    runStream_loop (S (S fuel)) tools s = runStream_loop (S fuel) tools s' /\
    messages s'
    = messages s ++
      AssistantMessage
        (if String.eqb (joined (text_deltas (Stream.chunks stream))) "" then None
         else Some (joined (text_deltas (Stream.chunks stream))))
        (Some (Some <$> (before ++ tc :: after)))
      :: replies_before ++
         ToolMessage (id tc)
           (JSON_stringify
              (JObj [("error",
                      JStr (match e with
                            | JsError message => message
                            | JsOther => "Unknown error"
                            end))]))
         :: replies_after /\
    Forall2 answers before replies_before /\
    Forall2 answers after replies_after /\
    events (snd (runStream_loop (S (S fuel)) tools s))
    = events s' ++ Requested (messages s') (offered tools) :: rest.
Proof.
  intros Hcreate Hfail Hreason Hcalls Hparse.
  assert (Hstops : stops (round_of (Stream.chunks stream)) = false).
  { apply stops_false. split; [done|]. cbn [toolCalls round_of].
    rewrite Hcalls, length_fmap, length_app. simpl. lia. }
  assert (Hassistant :
            assistant_message (round_of (Stream.chunks stream))
            = AssistantMessage
                (if String.eqb (joined (text_deltas (Stream.chunks stream))) ""
                 then None
                 else Some (joined (text_deltas (Stream.chunks stream))))
                (Some (Some <$> (before ++ tc :: after)))).
  { unfold assistant_message. cbn [currentContent toolCalls round_of].
    rewrite Hcalls. do 2 f_equal. rewrite <- list_fmap_compose.
    apply list_fmap_ext. by intros ? [] ?. }
  rewrite (runStream_loop_round (S fuel) tools s stream l Hcreate Hfail), Hstops.
  unfold bind at 1. unfold tool_round, bind, yield, push, modify.
  cbn [toolCalls round_of]. rewrite Hcalls, fmap_app, fmap_cons, for_of_app.
  unfold bind.
  match goal with
  | |- context [for_of (Some <$> before) execute ?s0] =>
      destruct (for_of_execute_dense before s0)
        as (replies_before & s1 & Hfor1 & Hm1 & Hans1 & _)
  end.
  rewrite Hfor1. cbn [for_of]. unfold bind.
  rewrite (execute_unparsable tc e s1 Hparse).
  match goal with
  | |- context [for_of (Some <$> after) execute ?s0] =>
      destruct (for_of_execute_dense after s0)
        as (replies_after & s2 & Hfor2 & Hm2 & Hans2 & _)
  end.
  rewrite Hfor2.
  destruct (runStream_loop_advertised (S fuel) tools s2) as (new & Hnew & _ & Hhead).
  specialize (Hhead ltac:(lia)).
  destruct new as [|first rest]; [done|]. injection Hhead as ->.
  exists replies_before, replies_after, s2, rest.
  split; [done|]. split; [|split; [exact Hans1|split; [exact Hans2|exact Hnew]]].
  rewrite fmap_app, fmap_cons in Hassistant.
  rewrite Hm2. cbn [messages set_messages]. rewrite Hm1. cbn.
  rewrite Hassistant, <- !app_assoc. done.
Qed.

(** ** The body of a request *)

(** X13: both handlers read [message] from the body inside their [try].
    A request without a body ([req.body] is [undefined] or [null]) is
    answered with status 500 and the message of the [TypeError] under
    [details]; a request whose body has no [message], or one that is not a
    string or is the empty string, with status 400 and
    [{error: "Message is required"}].  In both cases the agent is left
    untouched: nothing is connected, requested or invoked.  A request whose
    [message] is a non-empty string is handled as that message and is never
    answered with status 400. *)
Theorem request_body_is_validated (fuel : nat) (body : option Json) (s : State) :
  (body = None ->
   post_chat fuel body s
   = (JsonReply 500 (internal_error (cannot_destructure "undefined")), s) /\
   post_chat_sync fuel body s
   = (JsonReply 500 (internal_error (cannot_destructure "undefined")), s)) /\
  (body = Some JNull ->
   post_chat fuel body s
   = (JsonReply 500 (internal_error (cannot_destructure "null")), s) /\
   post_chat_sync fuel body s
   = (JsonReply 500 (internal_error (cannot_destructure "null")), s)) /\
  (forall fields,
      body = Some (JObj fields) ->
      ~ acceptable (field "message" fields) ->
      post_chat fuel body s
      = (JsonReply 400 (JObj [("error", JStr "Message is required")]), s) /\
      post_chat_sync fuel body s
      = (JsonReply 400 (JObj [("error", JStr "Message is required")]), s)) /\
  (forall value,
      body = Some value ->
      match value with JNull | JObj _ => False | _ => True end ->
      post_chat fuel body s
      = (JsonReply 400 (JObj [("error", JStr "Message is required")]), s) /\
      post_chat_sync fuel body s
      = (JsonReply 400 (JObj [("error", JStr "Message is required")]), s)) /\
  (forall fields text,
      body = Some (JObj fields) ->
      field "message" fields = Some (JStr text) ->
      text <> "" ->
      post_chat fuel body s = chat fuel (Some (JStr text)) s /\
      post_chat_sync fuel body s = chat_sync fuel (Some (JStr text)) s /\
      forall reply,
        fst (post_chat fuel body s) <> JsonReply 400 reply /\
        fst (post_chat_sync fuel body s) <> JsonReply 400 reply).
Proof.
  unfold post_chat, post_chat_sync.
  split; [by intros ->|]. split; [by intros ->|].
  split; [|split].
  - intros fields -> Hbad. cbn [message_of].
    by destruct (message_is_validated fuel (field "message" fields) s)
      as [Hrejects _]; apply Hrejects.
  - intros value -> Hvalue.
    assert (Hnone : message_of (Some value) = inr None) by (by destruct value).
    rewrite Hnone.
    destruct (message_is_validated fuel None s) as [Hrejects _].
    apply Hrejects. by intros (? & ? & _).
  - intros fields text -> Hfield Hne. cbn [message_of]. rewrite Hfield.
    split; [done|]. split; [done|].
    destruct (message_is_validated fuel (Some (JStr text)) s) as [_ Haccepts].
    apply Haccepts. by exists text.
Qed.

End Properties.

(** * The scripted environments at work *)

(** The scenario of the specification: one tool, one tool round, then the
    answer; exactly one invocation, and the tool result is in the
    conversation of the second request. *)
Example storage_scenario :
  fst (turn storage_script) = Ok tt /\
  output (snd (turn storage_script))
  = [tool_round_marker; "You have 2 storage accounts: "; "acct1, acct2."] /\
  invocations (events (snd (turn storage_script)))
  = [("list_storage_accounts", JObj [])] /\
  last (messages (snd (turn storage_script)))
  = Some (ToolMessage "call_1" (stringify (JArr [JStr "acct1"; JStr "acct2"]))) /\
  length (advertised (events (snd (turn storage_script)))) = 2.
Proof. vm_compute. repeat split. Qed.

(** The scenario of the specification in which the tool throws: the
    tool-result carries the error, and the second request is issued. *)
Example denied_scenario :
  fst (turn denied_script) = Ok tt /\
  last (messages (snd (turn denied_script)))
  = Some (ToolMessage "call_1" (stringify (error_object "Access denied"))) /\
  length (advertised (events (snd (turn denied_script)))) = 2.
Proof. vm_compute. repeat split. Qed.

(** Fragments for position 0, then position 1, then more of position 0. *)
Example interleaved_assembly :
  assemble interleaved_fragments
  = [ Some {| id := "call_a";
              function := {| name := "list_storage_accounts"; arguments := "{}" |} |};
      Some {| id := "call_b";
              function := {| name := "get_resource"; arguments := "{}" |} |} ].
Proof. reflexivity. Qed.

(** C1, at a stream the code can receive: the only fragment names position
    1 and the stream ends with the tool-calling signal.  The round has one
    accumulated request, behind a hole; the turn throws out of the handler of
    the loop over the calls, the request has got no tool-result message (the
    conversation ends with the assistant message), the tool has not been
    invoked, and no second completion request has been issued. *)
Theorem sparse_round_drops_request :
  toolCalls (round_of (Stream.chunks (call_at 1))) = [None; Some storage_request] /\
  fst (turn sparse_script) = Throw undefined_read /\
  messages (snd (turn sparse_script))
  = [ SystemMessage "You are an Azure assistant.";
      UserMessage "List storage accounts";
      AssistantMessage None (Some [None; Some storage_request]) ] /\
  invocations (events (snd (turn sparse_script))) = [] /\
  length (advertised (events (snd (turn sparse_script)))) = 1.
Proof. vm_compute. repeat split. Qed.

(** C2 as worded fails: of two fragments of position 0 that both supply an
    identifier, the request keeps the second one's. *)
Lemma first_fragment_does_not_win : ~ first_fragment_wins renamed_fragments.
Proof.
  intros Hwins.
  destruct (Hwins 0 _ eq_refl) as [Hid _].
  vm_compute in Hid. discriminate Hid.
Qed.

Lemma loop_continues_iff_tool_calls_witness :
  runStream_loop 2 [] (ready_agent storage_script [])
  = bind (tool_round (round_of (Stream.chunks (call_at 0))))
      (fun _ => runStream_loop 1 [])
      (@streamed (scripted storage_script) [] (call_at 0) 1
         (ready_agent storage_script [])).
Proof.
  destruct (@loop_continues_iff_tool_calls (scripted storage_script) 1 []
              (ready_agent storage_script []) (call_at 0) 1 eq_refl eq_refl)
    as [Hgoes _].
  apply Hgoes. split; [reflexivity|].
  exists 0, storage_request. reflexivity.
Defined.

Lemma run_is_drained_runStream_witness :
  fst (run 1 "Hello" (ready_agent plain_script []))
  = Ok (joined (text_deltas (Stream.chunks final_answer))).
Proof.
  destruct (@run_is_drained_runStream (scripted plain_script) 1 "Hello"
              (ready_agent plain_script [])) as [_ Hplain].
  apply (Hplain final_answer 1); [reflexivity | reflexivity | reflexivity | | lia].
  discriminate.
Defined.

(** C5 as worded fails: the catalog is empty, no tool is advertised, the
    model asks for a tool all the same, and the loop enters the tool round:
    the marker is yielded and the tool is invoked. *)
Lemma empty_catalog_enters_tool_round :
  fst (getOpenAITools (snd (initialize (new_agent uninvited_script)))) = Ok [] /\
  advertised (events (snd (turn uninvited_script))) = [None; None] /\
  head (output (snd (turn uninvited_script))) = Some tool_round_marker /\
  invocations (events (snd (turn uninvited_script)))
  = [("list_storage_accounts", JObj [])].
Proof. vm_compute. repeat split. Qed.

Lemma empty_catalog_turn_witness :
  exists s',
    runStream 1 "Hello" [] (ready_agent plain_script []) = (Ok tt, s') /\
    events s' = [Requested (@conversation (scripted plain_script) "Hello" []) None] /\
    output s' = text_deltas (Stream.chunks final_answer) /\
    provider s' = tt.
Proof.
  destruct (@empty_catalog_turn (scripted plain_script) 0 "Hello" []
              (ready_agent plain_script []) eq_refl eq_refl) as [_ Hends].
  apply (Hends final_answer 1); [reflexivity | reflexivity |].
  left. discriminate.
Defined.

(** C6 as worded fails: the handshake succeeds, the retrieval of the catalog
    fails, [connect] throws, and the client is left connected. *)
Lemma connect_leaves_connected_without_catalog :
  fst (connect (new_agent broken_catalog_script))
  = Throw (JsError "Request timed out") /\
  Client.isConnected (mcpClient (snd (connect (new_agent broken_catalog_script))))
  = true /\
  Client.tools (mcpClient (snd (connect (new_agent broken_catalog_script)))) = [].
Proof. vm_compute. repeat split. Qed.

(** C7 as worded fails: after [connect] and [disconnect] the client is not
    connected and [getTools] still returns the catalog. *)
Lemma disconnect_leaves_tools_cached :
  Client.isConnected
    (mcpClient (snd (disconnect (snd (connect (new_agent storage_script))))))
  = false /\
  fst (getTools (snd (disconnect (snd (connect (new_agent storage_script))))))
  = Ok [to_MCPTool list_storage_accounts] /\
  fst (getTools (snd (disconnect (snd (connect (new_agent storage_script))))))
  <> Ok [].
Proof. vm_compute. repeat split. discriminate. Qed.

Lemma disconnect_keeps_tools_witness :
  exists s',
    disconnect (ready_agent storage_script [to_MCPTool list_storage_accounts])
    = (Ok tt, s') /\
    Client.isConnected (mcpClient s') = false /\
    getTools s' = (Ok [to_MCPTool list_storage_accounts], s').
Proof.
  destruct (@disconnect_keeps_tools (scripted storage_script)
              (ready_agent storage_script [to_MCPTool list_storage_accounts]))
    as (s' & Hd & Hc & _ & Hg & _); [reflexivity|].
  exists s'. split; [exact Hd|]. split; [|exact Hg].
  rewrite Hc. reflexivity.
Defined.

Lemma callTool_failure_is_answered_witness :
  execute (Some storage_request) (new_agent storage_script)
  = (Ok tt,
     set_messages
       [ToolMessage "call_1"
          (stringify (error_object "MCP client not connected"))]
       (new_agent storage_script)).
Proof.
  destruct (@callTool_failure_is_answered (scripted storage_script)
              storage_request (JObj []) []
              (new_agent storage_script) eq_refl (or_introl eq_refl))
    as (e & s1 & _ & Hdown & Hex & _).
  destruct (Hdown (or_introl eq_refl)) as [-> ->].
  exact Hex.
Defined.

Lemma sparse_positions_abort_turn_witness :
  exists s',
    runStream_loop 2 [] (ready_agent sparse_script [])
    = (Throw undefined_read, s').
Proof.
  destruct (@sparse_positions_abort_turn (scripted sparse_script) 1 []
              (ready_agent sparse_script []) (call_at 1) 1 0
              {| Delta.index := 1; Delta.id := Some "call_1";
                 Delta.name := Some "list_storage_accounts";
                 Delta.arguments := Some "{}" |})
    as (answered & results & s' & Hthrows & _);
    [reflexivity | reflexivity | reflexivity | apply list_elem_of_here
    | cbn; lia | reflexivity |].
  exists s'. exact Hthrows.
Defined.

(** * Further runs of the scripted environments *)

Lemma tool_round_invokes_in_order_witness :
  invocations
    (events (snd (tool_round (round_of (Stream.chunks two_calls))
                    (ready_agent two_calls_script []))))
  = [("list_storage_accounts", JObj [])].
Proof.
  exact (@tool_round_invokes_in_order (scripted two_calls_script)
           (round_of (Stream.chunks two_calls))
           [resource_request; storage_request]
           (ready_agent two_calls_script []) eq_refl eq_refl eq_refl).
Defined.

Lemma agent_methods_keep_client_in_step_witness :
  agent_ok (snd (turn storage_script)).
Proof.
  assert (Hnew : agent_ok (new_agent storage_script)) by (split; discriminate).
  destruct (@agent_methods_keep_client_in_step (scripted storage_script)
              (new_agent storage_script) Hnew) as (_ & _ & Hturn & _).
  apply Hturn.
Defined.

Lemma initialize_once_witness :
  initialize (snd (initialize (new_agent storage_script)))
  = (Ok tt, snd (initialize (new_agent storage_script))).
Proof.
  assert (Hnew : agent_ok (new_agent storage_script)) by (split; discriminate).
  destruct (@initialize_once (scripted storage_script)
              (new_agent storage_script)
              (snd (initialize (new_agent storage_script))) Hnew eq_refl)
    as (_ & _ & _ & Hagain).
  exact Hagain.
Defined.

Lemma initialize_after_failed_catalog_witness :
  exists s1,
    initialize (new_agent broken_catalog_script)
    = (Throw (JsError "Request timed out"), s1) /\
    initialize s1 = (Ok tt, set_initialized true s1) /\
    Client.tools (mcpClient s1) = [].
Proof.
  destruct (@initialize_after_failed_catalog (scripted broken_catalog_script)
              (new_agent broken_catalog_script) (JsError "Request timed out")
              tt tt eq_refl eq_refl eq_refl eq_refl)
    as (s1 & Hthrows & Hretry & _ & Htools & _).
  exists s1. split; [exact Hthrows|]. split; [exact Hretry | exact Htools].
Defined.

Lemma first_request_advertises_catalog_witness :
  exists rest,
    events (snd (runStream 1 "List storage accounts" [] (new_agent storage_script)))
    = Requested
        [ SystemMessage "You are an Azure assistant.";
          UserMessage "List storage accounts" ]
        (Some [advertised_tool list_storage_accounts]) :: rest.
Proof.
  exact (@first_request_advertises_catalog (scripted storage_script) 0
           "List storage accounts" [] (new_agent storage_script)
           [list_storage_accounts] tt tt eq_refl eq_refl eq_refl eq_refl).
Defined.

Lemma reconnect_refetches_catalog_witness :
  exists s2,
    initialize (snd (agent_disconnect (ready_agent storage_script [])))
    = (Ok tt, s2) /\
    Client.tools (mcpClient s2) = [to_MCPTool list_storage_accounts].
Proof.
  destruct (@reconnect_refetches_catalog (scripted storage_script)
              (ready_agent storage_script [])
              (snd (agent_disconnect (ready_agent storage_script [])))
              [list_storage_accounts] tt tt eq_refl eq_refl eq_refl)
    as (s2 & Hinit & Htools & _).
  exists s2. split; [exact Hinit | exact Htools].
Defined.

Lemma connect_args_layout_witness :
  connect_args (mcp_client_config server_config) !! 8 = Some "--namespace" /\
  connect_args (mcp_client_config server_config) !! 9 = Some "resourcegraph".
Proof.
  destruct (connect_args_layout (mcp_client_config server_config))
    as (_ & Hflags & _).
  exact (Hflags 2 "resourcegraph" eq_refl).
Defined.

Lemma agent_is_read_only_by_default_witness :
  connect_args (mcp_client_config default_config) !! 10 = Some "--read-only" /\
  length (connect_args bare_client) = 10.
Proof.
  destruct (agent_is_read_only_by_default default_config) as (Hflag & _ & Hclient).
  split; [exact Hflag|].
  exact (Hclient bare_client eq_refl).
Defined.

Lemma validate_env_spec_witness :
  exists before after,
    requiredEnvVars = before ++ "AZURE_OPENAI_API_KEY" :: after /\
    (forall earlier, earlier ∈ before -> is_set partial_env earlier) /\
    (partial_env !! "AZURE_OPENAI_API_KEY" = None \/
     partial_env !! "AZURE_OPENAI_API_KEY" = Some "").
Proof.
  destruct (validate_env_spec partial_env) as [_ Hexits].
  apply Hexits. vm_compute. reflexivity.
Defined.

Lemma connection_failure_is_a_500_witness :
  chat 5 hello (new_agent unreachable_script)
  = (JsonReply 500 (internal_error (JsError "spawn npx ENOENT")),
     snd (initialize (new_agent unreachable_script))).
Proof.
  assert (Hgood : acceptable hello)
    by (exists "Hello"; split; [reflexivity | discriminate]).
  destruct (@connection_failure_is_a_500 (scripted unreachable_script) 5 hello
              (new_agent unreachable_script)
              (snd (initialize (new_agent unreachable_script)))
              (JsError "spawn npx ENOENT") Hgood eq_refl) as [Hchat _].
  exact Hchat.
Defined.

Lemma sync_reply_is_the_streamed_body_witness :
  chat_sync 5 hello (new_agent storage_script)
  = (JsonReply 200
       (JObj [("response",
               JStr (joined [tool_round_marker; "You have 2 storage accounts: ";
                             "acct1, acct2."]))]),
     snd (chat 5 hello (new_agent storage_script))).
Proof.
  apply (@sync_reply_is_the_streamed_body (scripted storage_script)).
  vm_compute. reflexivity.
Defined.

Lemma failure_after_tool_round_is_in_band_witness :
  match fst (chat 2 hello (ready_agent sparse_script [])) with
  | JsonReply _ _ => False
  | Chunked chunks _ | Pending chunks =>
      exists more,
        chunks = text_deltas (Stream.chunks (call_at 1)) ++ tool_round_marker :: more
  end.
Proof.
  assert (Hgood : acceptable hello)
    by (exists "Hello"; split; [reflexivity | discriminate]).
  apply (@failure_after_tool_round_is_in_band (scripted sparse_script) 1 hello
           (ready_agent sparse_script []) (call_at 1) 1 Hgood eq_refl eq_refl
           eq_refl eq_refl).
  discriminate.
Defined.

Lemma dense_round_answers_all_witness :
  exists tcs results s',
    assemble (fragments (Stream.chunks (call_at 0))) = Some <$> tcs /\
    runStream_loop 2 [] (ready_agent storage_script [])
    = runStream_loop 1 [] s' /\
    Forall2 answers tcs results.
Proof.
  assert (Hdense : dense (assemble (fragments (Stream.chunks (call_at 0))))).
  { intros [|i] Hi; [by eexists|]. cbn in Hi. lia. }
  destruct (@dense_round_answers_all (scripted storage_script) 1 []
              (ready_agent storage_script []) (call_at 0) 1
              eq_refl eq_refl eq_refl Hdense)
    as (tcs & results & s' & Hcalls & Hloop & _ & Hans & _).
  exists tcs, results, s'. split; [exact Hcalls|]. split; [exact Hloop | exact Hans].
Defined.

Lemma assemble_dense_iff_witness : dense (assemble interleaved_fragments).
Proof.
  apply assemble_dense_iff. intros [|[|i]] Hi; [discriminate..|].
  cbn in Hi. lia.
Defined.

Lemma broken_stream_replies_witness :
  exists s',
    chat 1 hello (ready_agent interrupted_script [])
    = (Chunked ["You have "] (Some error_trailer), s') /\
    chat_sync 1 hello (ready_agent interrupted_script [])
    = (JsonReply 500 (internal_error (JsError "Connection error.")), s').
Proof.
  assert (Hgood : acceptable hello)
    by (exists "Hello"; split; [reflexivity | discriminate]).
  destruct (@broken_stream_replies (scripted interrupted_script) 0 hello
              (ready_agent interrupted_script []) interrupted 1
              (JsError "Connection error.") Hgood eq_refl eq_refl eq_refl)
    as (s' & Hchat & Hsync & _).
  exists s'. split; [exact Hchat | exact Hsync].
Defined.

(** C3, at a stream the code can receive: the only fragment names position
    1 and the last chunk's finish reason is ["tool_calls"].  The condition of
    the claim holds (the tool-calling signal, one request accumulated) and
    the loop does not break; yet no further completion request is issued: the
    turn throws in the tool round with the one request of this iteration as
    the only thing logged. *)
Theorem sparse_round_issues_no_request :
  terminal_finish_reason (Stream.chunks (call_at 1)) = Some "tool_calls" /\
  arr_get (assemble (fragments (Stream.chunks (call_at 1)))) 1
  = Some storage_request /\
  stops (round_of (Stream.chunks (call_at 1))) = false /\
  fst (turn sparse_script) = Throw undefined_read /\
  events (snd (turn sparse_script))
  = [ Requested
        [ SystemMessage "You are an Azure assistant.";
          UserMessage "List storage accounts" ]
        (Some [advertised_tool list_storage_accounts]) ].
Proof. vm_compute. repeat split. Qed.

(** C9, at a stream the code can receive: in one chunk, a fragment at
    position 0 without arguments and a fragment at position 2, with the
    tool-calling signal.  The request at position 0, whose argument string
    is not JSON, gets its tool-result message with the serialized
    [{error: message}] object and is not invoked; but the turn does not
    continue: the loop over the calls throws at the hole at position 1, the
    request at position 2 is never executed, and no second completion request
    is issued. *)
Theorem unparsable_request_before_hole :
  toolCalls (round_of (Stream.chunks gap_after_unparsable))
  = [Some resource_request; None; Some storage_request] /\
  fst (turn gap_script) = Throw undefined_read /\
  messages (snd (turn gap_script))
  = [ SystemMessage "You are an Azure assistant.";
      UserMessage "List storage accounts";
      AssistantMessage None
        (Some [Some resource_request; None; Some storage_request]);
      ToolMessage "call_0"
        (stringify (JObj [("error", JStr "Unexpected end of JSON input")])) ] /\
  invocations (events (snd (turn gap_script))) = [] /\
  length (advertised (events (snd (turn gap_script)))) = 1.
Proof. vm_compute. repeat split. Qed.

Lemma unparsable_arguments_get_error_reply_witness :
  execute (Some unparsable_request) (ready_agent storage_script [])
  = (Ok tt,
     set_messages
       [ToolMessage "call_1"
          (stringify (JObj [("error", JStr "Unexpected end of JSON input")]))]
       (ready_agent storage_script [])).
Proof.
  destruct (@unparsable_arguments_get_error_reply (scripted storage_script)
              unparsable_request (JsError "Unexpected end of JSON input") []
              (ready_agent storage_script []) eq_refl) as [Hex _].
  exact Hex.
Defined.

Lemma unparsable_request_in_dense_round_witness :
  exists replies_before replies_after s',
    runStream_loop 2 [] (ready_agent two_calls_script [])
    = runStream_loop 1 [] s' /\
    messages s'
    = AssistantMessage (Some "Let me check.")
        (Some [Some resource_request; Some storage_request])
      :: replies_before ++
         ToolMessage "call_0"
           (stringify (JObj [("error", JStr "Unexpected end of JSON input")]))
         :: replies_after /\
    Forall2 answers [] replies_before /\
    Forall2 answers [storage_request] replies_after.
Proof.
  destruct (@unparsable_request_in_dense_round (scripted two_calls_script) 0 []
              (ready_agent two_calls_script []) two_calls 1
              [] [storage_request] resource_request
              (JsError "Unexpected end of JSON input")
              eq_refl eq_refl eq_refl eq_refl eq_refl)
    as (replies_before & replies_after & s' & rest & Hloop & Hm & Hb & Ha & _).
  exists replies_before, replies_after, s'.
  split; [exact Hloop|]. split; [exact Hm|]. split; [exact Hb | exact Ha].
Defined.

Lemma request_body_is_validated_witness :
  post_chat 5 None (new_agent storage_script)
  = (JsonReply 500 (internal_error (cannot_destructure "undefined")),
     new_agent storage_script) /\
  post_chat 5 no_message (new_agent storage_script)
  = (JsonReply 400 (JObj [("error", JStr "Message is required")]),
     new_agent storage_script).
Proof.
  split.
  - destruct (@request_body_is_validated (scripted storage_script) 5 None
                (new_agent storage_script)) as [Hmissing _].
    apply Hmissing. reflexivity.
  - destruct (@request_body_is_validated (scripted storage_script) 5 no_message
                (new_agent storage_script)) as (_ & _ & Hrejects & _).
    apply (Hrejects [("text", JStr "Hello")] eq_refl).
    intros (text & Htext & _). discriminate Htext.
Defined.
